(** * Room coordination and message relay server (server.js)

    A shallow embedding of the socket.io room server: the registry
    [rooms], the per-connection handlers [createRoom], [joinRoom],
    [sendTranscript], [disconnect] and [leaveRoom], and the events they
    send.  Handlers are pure functions from the server state to the next
    state and the list of outputs.

    Modelling conventions.
    - [new Date()] is a reading of the clock, a time value in milliseconds
      since the epoch.  A handler receives [now : nat -> Z]; the k-th
      evaluation of [new Date()] in its body reads [now k].
    - [uuidv4()] renders sixteen random octets; the octets are an input of
      the handler, given as the 128-bit number [rnds].
    - [text] and [confidence] are passed through by the server and never
      inspected; a text is a string and a confidence a rational number.
    - socket.io keeps, per live socket, the set of broadcast rooms it has
      joined ([socket.join], [socket.leave]); [socket.to(r).emit] reaches
      every live socket joined to [r] except the emitting one; a socket
      leaves all its rooms when it disconnects, before the ['disconnect']
      listeners run.  Socket identifiers are never reissued, and they are
      not room identifiers (twenty characters against six).
    - Event payloads are well formed: room identifiers and texts are
      strings, the acknowledgement callback is a function.  Under this
      convention no statement of a handler throws, so the [catch] branches
      of [createRoom] and [joinRoom] are not reached.

    The file has two parts: the definitions (data, built-ins, handlers,
    transition system, observations, scenarios), then the lemmas and the
    theorems about them. *)

From Stdlib Require Import ZArith QArith String Ascii.
From stdpp Require Import base gmap sets list strings.

Local Open Scope string_scope.
Local Open Scope list_scope.
Local Open Scope nat_scope.

(** * Part I: definitions *)

(** ** Data model *)

(** The value stored in [room.users] under a socket id.  Its [id] field
    is [user_id] here and the room's is [room_id], projections sharing one
    name space. *)
Record User := mkUser {
  user_id : string;
  joinedAt : Z;
  lastActive : Z
}.

(** An entry of [room.messages]. *)
Record Message := mkMessage {
  userId : string;
  text : string;
  confidence : Q;
  timestamp : string
}.

Record Room := mkRoom {
  room_id : string;
  users : gmap string User;
  createdAt : Z;
  messages : list Message
}.

(** What the server knows of a live socket: the [roomId] property the
    handlers set on it, and the socket.io rooms it has joined. *)
Record Socket := mkSocket {
  roomId : option string;
  sio_rooms : gset string
}.

Record State := mkState {
  localIP : string;
  rooms : gmap string Room;
  sockets : gmap string Socket;
  issued : gset string
}.

(** Argument of an acknowledgement callback. *)
Inductive response :=
| CreateOk (roomId : string) (serverIP : string)
| JoinOk (userCount : nat) (backfill : list Message)
| Failure (error : string).

(** Payload of a server-to-client event. *)
Inductive payload :=
| userJoined (userId : string) (userCount : nat)
| userLeft (userId : string) (userCount : nat)
| receiveTranscript (message : Message).

Inductive output :=
| Reply (to : string) (r : response)
| Emit (to : gset string) (p : payload).

(** ** Built-ins and library functions used by the handlers *)

Definition hexdigit (n : N) : ascii :=
  match n with
  | 0%N => "0" | 1%N => "1" | 2%N => "2" | 3%N => "3"
  | 4%N => "4" | 5%N => "5" | 6%N => "6" | 7%N => "7"
  | 8%N => "8" | 9%N => "9" | 10%N => "a" | 11%N => "b"
  | 12%N => "c" | 13%N => "d" | 14%N => "e" | _ => "f"
  end%char.

Definition hex2 (b : N) (rest : string) : string :=
  String (hexdigit (N.land (N.shiftr b 4) 15))
    (String (hexdigit (N.land b 15)) rest).

(** Octet [i] (0 is the first) of the sixteen random octets. *)
Definition octet (rnds : N) (i : N) : N :=
  N.land (N.shiftr rnds (8 * (15 - i))) 255.

(** Lower-case hexadecimal rendering of a sequence of octets. *)
Definition hexs (bs : list N) : string := foldr hex2 "" bs.

(** [uuidv4]: version and variant bits are forced, then the octets are
    written in lower-case hexadecimal, grouped 8-4-4-4-12. *)
Definition uuidv4 (rnds : N) : string :=
  let b i := octet rnds i in
  let b6 := N.lor (N.land (b 6%N) 15) 64 in
  let b8 := N.lor (N.land (b 8%N) 63) 128 in
  hexs [b 0%N; b 1%N; b 2%N; b 3%N] +:+ "-" +:+
  hexs [b 4%N; b 5%N] +:+ "-" +:+
  hexs [b6; b 7%N] +:+ "-" +:+
  hexs [b8; b 9%N] +:+ "-" +:+
  hexs [b 10%N; b 11%N; b 12%N; b 13%N; b 14%N; b 15%N].

(** [Array.prototype.slice(-k)]: the last [k] elements, all of them when
    the array is shorter. *)
Definition slice_last {A} (k : nat) (l : list A) : list A :=
  drop (length l - k) l.

(** [Array.prototype.shift()] as used for its effect on the array. *)
Definition shift {A} (l : list A) : list A := tail l.

(** *** [Date.prototype.toISOString]

    Time values are milliseconds since 1970-01-01T00:00:00Z in the
    proleptic Gregorian calendar. *)

Section date.
Local Open Scope Z_scope.

Definition msPerDay : Z := 86400000.

Definition Day (t : Z) : Z := t / msPerDay.

(** Year, month (1 to 12) and day of the month of day number [z0]. *)
Definition civil_from_days (z0 : Z) : Z * Z * Z :=
  let z := z0 + 719468 in
  let era := z / 146097 in
  let doe := z mod 146097 in
  let yoe := (doe - doe / 1460 + doe / 36524 - doe / 146096) / 365 in
  let doy := doe - (365 * yoe + yoe / 4 - yoe / 100) in
  let mp := (5 * doy + 2) / 153 in
  let d := doy - (153 * mp + 2) / 5 + 1 in
  let m := if mp <? 10 then mp + 3 else mp - 9 in
  let y := yoe + era * 400 in
  (if m <=? 2 then y + 1 else y, m, d).

Definition YearFromTime (t : Z) : Z := (civil_from_days (Day t)).1.1.
Definition MonthFromTime (t : Z) : Z := (civil_from_days (Day t)).1.2 - 1.
Definition DateFromTime (t : Z) : Z := (civil_from_days (Day t)).2.
Definition HourFromTime (t : Z) : Z := (t / 3600000) mod 24.
Definition MinFromTime (t : Z) : Z := (t / 60000) mod 60.
Definition SecFromTime (t : Z) : Z := (t / 1000) mod 60.
Definition msFromTime (t : Z) : Z := t mod 1000.

Definition digit (n : Z) : ascii := ascii_of_nat (48 + Z.to_nat (n mod 10))%nat.

(** The [k] low decimal digits of [n], zero padded, in front of [rest]. *)
Fixpoint digits (k : nat) (n : Z) (rest : string) : string :=
  match k with
  | O => rest
  | S k' => digits k' (n / 10) (String (digit n) rest)
  end.

(** Years 0 to 9999 are written with four digits, the others with a sign
    and six digits. *)
Definition year_digits (y : Z) (rest : string) : string :=
  if (0 <=? y) && (y <=? 9999) then digits 4 y rest
  else String (if 0 <=? y then "+"%char else "-"%char) (digits 6 (Z.abs y) rest).

Definition toISOString (t : Z) : string :=
  year_digits (YearFromTime t) (String "-"
  (digits 2 (MonthFromTime t + 1) (String "-"
  (digits 2 (DateFromTime t) (String "T"
  (digits 2 (HourFromTime t) (String ":"
  (digits 2 (MinFromTime t) (String ":"
  (digits 2 (SecFromTime t) (String "."
  (digits 3 (msFromTime t) "Z")))))))))))).

End date.

(** ** The socket.io layer *)

(** [socket.join(r)] *)
Definition socket_join (sid r : string) (ss : gmap string Socket) : gmap string Socket :=
  alter (λ sk, mkSocket (roomId sk) ({[r]} ∪ sio_rooms sk)) sid ss.

(** [socket.leave(r)] *)
Definition socket_leave (sid r : string) (ss : gmap string Socket) : gmap string Socket :=
  alter (λ sk, mkSocket (roomId sk) (sio_rooms sk ∖ {[r]})) sid ss.

(** [socket.roomId = r] *)
Definition set_roomId (sid r : string) (ss : gmap string Socket) : gmap string Socket :=
  alter (λ sk, mkSocket (Some r) (sio_rooms sk)) sid ss.

(** The sockets reached by [socket.to(r).emit(...)] on socket [sid]. *)
Definition to (ss : gmap string Socket) (sid r : string) : gset string :=
  dom (filter (λ kv, r ∈ sio_rooms kv.2 ∧ kv.1 ≠ sid) ss).

(** JavaScript truthiness of a string: only the empty string is falsy.
    An [undefined] property, [None] below, is falsy as well. *)
Definition truthy (s : string) : bool := negb (String.eqb s "").

(** ** The handlers *)

Definition set_rooms (st : State) (rs : gmap string Room) : State :=
  mkState (localIP st) rs (sockets st) (issued st).

Definition set_sockets (st : State) (ss : gmap string Socket) : State :=
  mkState (localIP st) (rooms st) ss (issued st).

Definition set_users (room : Room) (us : gmap string User) : Room :=
  mkRoom (room_id room) us (createdAt room) (messages room).

Definition set_messages (room : Room) (ms : list Message) : Room :=
  mkRoom (room_id room) (users room) (createdAt room) ms.

(** [io.on('connection', ...)]: a socket with a fresh identifier appears,
    bound to no room and joined to no room.  The transport issues an
    identifier once; a connection under an identifier issued before does
    not occur, and is ignored here. *)
Definition connection (st : State) (sid : string) : State :=
  if decide (sid ∈ issued st) then st
  else mkState (localIP st) (rooms st)
         (<[sid := mkSocket None ∅]> (sockets st)) ({[sid]} ∪ issued st).

Definition createRoom (st : State) (sid : string) (rnds : N) (now : nat → Z)
  : State * list output :=
  let roomId := substring 0 6 (uuidv4 rnds) in
  let room := {| room_id := roomId;
                 users := {[ sid := mkUser sid (now 0) (now 1) ]};
                 createdAt := now 2;
                 messages := [] |} in
  let st := set_rooms st (<[roomId := room]> (rooms st)) in
  let st := set_sockets st (socket_join sid roomId (sockets st)) in
  let st := set_sockets st (set_roomId sid roomId (sockets st)) in
  (st, [Reply sid (CreateOk roomId (localIP st))]).

Definition joinRoom (st : State) (sid : string) (roomId : string) (now : nat → Z)
  : State * list output :=
  match rooms st !! roomId with
  | None => (st, [Reply sid (Failure "Room not found")])
  | Some room =>
      if 10 <=? size (users room) then
        (st, [Reply sid (Failure "Room is full")])
      else
        let st := set_sockets st (socket_join sid roomId (sockets st)) in
        let room :=
          set_users room (<[sid := mkUser sid (now 0) (now 1)]> (users room)) in
        let st := set_rooms st (<[roomId := room]> (rooms st)) in
        let st := set_sockets st (set_roomId sid roomId (sockets st)) in
        (st, [Reply sid (JoinOk (size (users room)) (slice_last 50 (messages room)));
              Emit (to (sockets st) sid roomId)
                   (userJoined sid (size (users room)))])
  end.

Definition sendTranscript (st : State) (sid : string)
    (roomId text : string) (confidence : Q) (now : nat → Z)
  : State * list output :=
  match rooms st !! roomId with
  | Some room =>
      if decide (is_Some (users room !! sid)) then
        let message := {| userId := sid; text := text; confidence := confidence;
                          timestamp := toISOString (now 0) |} in
        let room := set_messages room (messages room ++ [message]) in
        let room := if 100 <? length (messages room)
                    then set_messages room (shift (messages room)) else room in
        let room :=
          set_users room
            (alter (λ u, mkUser (user_id u) (joinedAt u) (now 1)) sid (users room)) in
        let st := set_rooms st (<[roomId := room]> (rooms st)) in
        (st, [Emit (to (sockets st) sid roomId) (receiveTranscript message)])
      else (st, [])
  | None => (st, [])
  end.

(** The ['disconnect'] listener.  By the time it runs socket.io has taken
    the socket out of every room it had joined; [socket.roomId] is still
    readable. *)
Definition disconnect (st : State) (sid : string) : State * list output :=
  let socket_roomId := sockets st !! sid ≫= roomId in
  let st := set_sockets st (delete sid (sockets st)) in
  match socket_roomId with
  | Some r =>
      if truthy r then
        match rooms st !! r with
        | Some room =>
            let room := set_users room (delete sid (users room)) in
            if size (users room) =? 0 then
              (set_rooms st (delete r (rooms st)), [])
            else
              (set_rooms st (<[r := room]> (rooms st)),
               [Emit (to (sockets st) sid r) (userLeft sid (size (users room)))])
        | None => (st, [])
        end
      else (st, [])
  | None => (st, [])
  end.

Definition leaveRoom (st : State) (sid : string) (roomId : string)
  : State * list output :=
  match rooms st !! roomId with
  | Some room =>
      if decide (is_Some (users room !! sid)) then
        let room := set_users room (delete sid (users room)) in
        let st := set_sockets st (socket_leave sid roomId (sockets st)) in
        if size (users room) =? 0 then
          (set_rooms st (delete roomId (rooms st)), [])
        else
          (set_rooms st (<[roomId := room]> (rooms st)),
           [Emit (to (sockets st) sid roomId) (userLeft sid (size (users room)))])
      else (st, [])
  | None => (st, [])
  end.

(** ** The server as a transition system *)

Inductive event :=
| Connection (sid : string)
| CreateRoom (sid : string) (rnds : N) (now : nat → Z)
| JoinRoom (sid : string) (roomId : string) (now : nat → Z)
| SendTranscript (sid : string) (roomId text : string) (confidence : Q)
                 (now : nat → Z)
| Disconnect (sid : string)
| LeaveRoom (sid : string) (roomId : string).

(** The socket an event arrives on. *)
Definition socket_of (ev : event) : string :=
  match ev with
  | Connection sid | CreateRoom sid _ _ | JoinRoom sid _ _
  | SendTranscript sid _ _ _ _ | Disconnect sid | LeaveRoom sid _ => sid
  end.

(** Listeners exist only on live sockets: an event naming a socket that is
    not connected is not delivered. *)
Definition step (st : State) (ev : event) : State * list output :=
  match ev with
  | Connection sid => (connection st sid, [])
  | _ =>
    match sockets st !! socket_of ev with
    | None => (st, [])
    | Some _ =>
      match ev with
      | Connection sid => (st, [])
      | CreateRoom sid rnds now => createRoom st sid rnds now
      | JoinRoom sid roomId now => joinRoom st sid roomId now
      | SendTranscript sid roomId text confidence now =>
          sendTranscript st sid roomId text confidence now
      | Disconnect sid => disconnect st sid
      | LeaveRoom sid roomId => leaveRoom st sid roomId
      end
    end
  end.

Fixpoint run (st : State) (evs : list event) : State * list output :=
  match evs with
  | [] => (st, [])
  | ev :: evs =>
      let '(st1, out1) := step st ev in
      let '(st2, out2) := run st1 evs in
      (st2, out1 ++ out2)
  end.

(** The server starts with an empty registry and no connection. *)
Definition init (ip : string) : State := mkState ip ∅ ∅ ∅.

Definition reachable (st : State) : Prop :=
  ∃ ip evs, st = (run (init ip) evs).1.

(** ** Observations on a state *)

(** [room && room.users.has(sid)] *)
Definition is_member (st : State) (sid roomId : string) : bool :=
  match rooms st !! roomId with
  | Some room => bool_decide (is_Some (users room !! sid))
  | None => false
  end.

(** [room.users.size], 0 for a room that is not in the registry. *)
Definition userCount (st : State) (roomId : string) : nat :=
  match rooms st !! roomId with
  | Some room => size (users room)
  | None => 0
  end.

(** The ids recorded in [room.users]. *)
Definition participants (st : State) (roomId : string) : gset string :=
  match rooms st !! roomId with
  | Some room => dom (users room)
  | None => ∅
  end.

(** The record of [sid] in [room.users]. *)
Definition participant (st : State) (roomId sid : string) : option User :=
  rooms st !! roomId ≫= λ room, users room !! sid.

(** [room.messages], empty for a room that is not in the registry. *)
Definition transcript (st : State) (roomId : string) : list Message :=
  match rooms st !! roomId with
  | Some room => messages room
  | None => []
  end.

(** The room a live socket is bound to through [socket.roomId]. *)
Definition bound_room (st : State) (sid : string) : option string :=
  sockets st !! sid ≫= roomId.

(** The rooms of the registry that record [sid] as a participant. *)
Definition recorded_in (st : State) (sid : string) : gset string :=
  dom (filter (λ kv, is_Some (users kv.2 !! sid)) (rooms st)).

(** ** Sequences of requests *)

(** The content of one [sendTranscript] request. *)
Record Send := mkSend {
  send_sid : string;
  send_text : string;
  send_confidence : Q;
  send_now : nat → Z
}.

Definition send_event (roomId : string) (s : Send) : event :=
  SendTranscript (send_sid s) roomId (send_text s) (send_confidence s)
    (send_now s).

(** The message the server builds for a request. *)
Definition message_of (s : Send) : Message :=
  mkMessage (send_sid s) (send_text s) (send_confidence s)
    (toISOString (send_now s 0)).

(** The sender is a live socket and a participant of the room. *)
Definition can_send (st : State) (roomId : string) (s : Send) : bool :=
  is_member st (send_sid s) roomId &&
  bool_decide (is_Some (sockets st !! send_sid s)).

Inductive room_op :=
| OpJoin (sid : string) (now : nat → Z)
| OpLeave (sid : string).

Definition apply_op (roomId : string) (st : State) (op : room_op) : State :=
  match op with
  | OpJoin sid now => (joinRoom st sid roomId now).1
  | OpLeave sid => (leaveRoom st sid roomId).1
  end.

Definition run_ops (roomId : string) (st : State) (ops : list room_op) : State :=
  foldl (apply_op roomId) st ops.

(** The request was answered with [success: true]. *)
Definition join_succeeded (out : list output) : bool :=
  match out with
  | Reply _ (JoinOk _ _) :: _ => true
  | _ => false
  end.

(** A join that is answered with success. *)
Definition successful_join (roomId : string) (st : State) (op : room_op) : bool :=
  match op with
  | OpJoin sid now => join_succeeded (joinRoom st sid roomId now).2
  | OpLeave _ => false
  end.

(** A successful join by a session that is not yet in the room. *)
Definition new_join (roomId : string) (st : State) (op : room_op) : bool :=
  match op with
  | OpJoin sid now =>
      join_succeeded (joinRoom st sid roomId now).2 &&
      negb (is_member st sid roomId)
  | OpLeave _ => false
  end.

(** A leave that removes a participant. *)
Definition effective_leave (roomId : string) (st : State) (op : room_op) : bool :=
  match op with
  | OpJoin _ _ => false
  | OpLeave sid => is_member st sid roomId
  end.

(** How many operations of the sequence satisfy [p] in the state they are
    applied to. *)
Fixpoint count_ops (p : State → room_op → bool) (roomId : string)
    (st : State) (ops : list room_op) : nat :=
  match ops with
  | [] => 0
  | op :: ops =>
      (if p st op then 1 else 0) + count_ops p roomId (apply_op roomId st op) ops
  end.

(** ** Bindings

    [socket.roomId] is assigned by [createRoom] and by a successful
    [joinRoom], and by nothing else. *)

(** The room an event binds its socket to, that is the value it assigns
    to [socket.roomId]: [createRoom] always assigns one, [joinRoom] does
    when it is answered with success, and no other handler assigns it.
    An event on a socket that is not live runs no handler. *)
Definition binds (st : State) (ev : event) : option string :=
  match sockets st !! socket_of ev with
  | None => None
  | Some _ =>
      match ev with
      | CreateRoom _ rnds _ => Some (substring 0 6 (uuidv4 rnds))
      | JoinRoom sid roomId now =>
          if join_succeeded (joinRoom st sid roomId now).2 then Some roomId
          else None
      | _ => None
      end
  end.

(** The room that the last binding event of socket [sid] in the run of
    [evs] from [st] binds it to, if the run has such an event. *)
Fixpoint last_binding (sid : string) (st : State) (evs : list event)
  : option string :=
  match evs with
  | [] => None
  | ev :: evs =>
      match last_binding sid (step st ev).1 evs with
      | Some r => Some r
      | None => if decide (socket_of ev = sid) then binds st ev else None
      end
  end.

(** ** Formats

    A recogniser for room identifiers, and one for the date-time strings
    that [toISOString] writes: [YYYY-MM-DDTHH:mm:ss.sssZ], the year being
    four digits or a sign and six digits, with the month, day, hour,
    minute and second in range. *)

(** The characters of a room identifier. *)
Definition is_hex (c : ascii) : bool :=
  bool_decide (c ∈ list_ascii_of_string "0123456789abcdef").

Definition is_digit (c : ascii) : bool :=
  (48 <=? nat_of_ascii c) && (nat_of_ascii c <=? 57).

Definition digit_value (c : ascii) : Z := Z.of_nat (nat_of_ascii c) - 48.

Definition is_sign (c : ascii) : bool :=
  Ascii.eqb c "+" || Ascii.eqb c "-".

(** Reads [k] decimal digits. *)
Fixpoint read_digits (k : nat) (acc : Z) (s : string) : option (Z * string) :=
  match k with
  | O => Some (acc, s)
  | S k' =>
      match s with
      | String c s' =>
          if is_digit c then read_digits k' (10 * acc + digit_value c) s'
          else None
      | EmptyString => None
      end
  end.

(** Reads a [k]-digit field whose value lies between [lo] and [hi]. *)
Definition field (k : nat) (lo hi : Z) (s : string) : option string :=
  match read_digits k 0 s with
  | Some (n, s') => if (lo <=? n)%Z && (n <=? hi)%Z then Some s' else None
  | None => None
  end.

Definition expect (c : ascii) (s : string) : option string :=
  match s with
  | String c' s' => if Ascii.eqb c c' then Some s' else None
  | EmptyString => None
  end.

Definition year_field (s : string) : option string :=
  match s with
  | String c s' =>
      if is_sign c then field 6 0 999999 s' else field 4 0 9999 s
  | EmptyString => None
  end.

(** Runs the recognisers [ps] one after the other. *)
Definition in_sequence (ps : list (string → option string)) (s : string)
  : option string :=
  foldl (λ rest p, rest ≫= p) (Some s) ps.

Definition is_iso8601 (s : string) : bool :=
  match
    in_sequence
      [year_field; expect "-"; field 2 1 12; expect "-"; field 2 1 31;
       expect "T"; field 2 0 23; expect ":"; field 2 0 59; expect ":";
       field 2 0 59; expect "."; field 3 0 999; expect "Z"] s
  with
  | Some EmptyString => true
  | _ => false
  end.

(** ** Invariants of the reachable states *)

Record room_ok (r : string) (room : Room) : Prop := {
  ok_id : room_id room = r;
  ok_key : String.length r = 6;
  ok_nonempty : 0 < size (users room);
  ok_cap : size (users room) ≤ 10;
  ok_bound : length (messages room) ≤ 100
}.

Record wf (st : State) : Prop := {
  wf_rooms : ∀ r room, rooms st !! r = Some room → room_ok r room;
  wf_live : ∀ sid, is_Some (sockets st !! sid) → sid ∈ issued st;
  wf_binding : ∀ sid sk r,
    sockets st !! sid = Some sk → roomId sk = Some r → String.length r = 6;
  wf_known : ∀ r room sid,
    rooms st !! r = Some room → is_Some (users room !! sid) → sid ∈ issued st;
  wf_joined : ∀ r room sid sk,
    rooms st !! r = Some room → is_Some (users room !! sid) →
    sockets st !! sid = Some sk → r ∈ sio_rooms sk
}.

(** ** Scenarios *)

Definition clock0 : nat → Z := λ k, (1700000000000 + Z.of_nat k)%Z.

(** One socket has created a room; a second socket is connected. *)
Definition lobby : State :=
  (run (init "192.168.1.20")
     [Connection "s1"; CreateRoom "s1" 0%N clock0; Connection "s2"]).1.

(** Nine sockets in the room ["000000"], a tenth connected. *)
Definition nine_members : State :=
  (run lobby
     ([JoinRoom "s2" "000000" clock0] ++
      flat_map (λ s, [Connection s; JoinRoom s "000000" clock0])
        ["s3"; "s4"; "s5"; "s6"; "s7"; "s8"; "s9"] ++
      [Connection "s10"])).1.

(** The creator of the room has sent one message. *)
Definition chatting : State :=
  (run lobby [SendTranscript "s1" "000000" "hello" (9 # 10) clock0]).1.

(** 101 requests of the room's creator, one second apart. *)
Definition hundred_and_one : list Send :=
  map (λ k, mkSend "s1" "hello" (9 # 10)
              (λ _, 1700000000000 + 1000 * Z.of_nat k)%Z)
      (seq 0 101).

(** A socket has created two rooms, one after the other. *)
Definition two_rooms : State :=
  (run (init "192.168.1.20")
     [Connection "s1"; CreateRoom "s1" 0%N clock0;
      CreateRoom "s1" (2 ^ 120)%N clock0]).1.

(** That socket has disconnected, and another socket is connected. *)
Definition stale_record : State :=
  (run two_rooms [Disconnect "s1"; Connection "s2"]).1.

(** The second socket has joined the room the first one left behind. *)
Definition joined_stale : State :=
  (joinRoom stale_record "s2" "000000" clock0).1.

(** * Part II: lemmas and theorems *)

(** ** Built-ins *)

Example toISOString_epoch : toISOString 0 = "1970-01-01T00:00:00.000Z".
Proof. reflexivity. Qed.

Example toISOString_leap_day :
  toISOString 1709251199999 = "2024-02-29T23:59:59.999Z".
Proof. reflexivity. Qed.

Example toISOString_before_epoch :
  toISOString (-1) = "1969-12-31T23:59:59.999Z".
Proof. reflexivity. Qed.

Example toISOString_expanded_year :
  toISOString 8640000000000000 = "+275760-09-13T00:00:00.000Z".
Proof. reflexivity. Qed.

Example iso8601_accepts : is_iso8601 "2023-11-14T22:13:20.000Z" = true.
Proof. reflexivity. Qed.

Example iso8601_rejects_month : is_iso8601 "2023-13-14T22:13:20.000Z" = false.
Proof. reflexivity. Qed.

Example iso8601_rejects_local : is_iso8601 "2023-11-14 22:13:20" = false.
Proof. reflexivity. Qed.

Section iso8601.
Local Open Scope Z_scope.

Lemma digit_spec n :
  is_digit (digit n) = true ∧ is_sign (digit n) = false ∧
  digit_value (digit n) = n mod 10.
Proof.
  unfold digit.
  assert (0 ≤ n mod 10 < 10) as Hr by (apply Z.mod_pos_bound; lia).
  remember (Z.to_nat (n mod 10)) as m eqn:Hm.
  assert (n mod 10 = Z.of_nat m) as -> by lia.
  assert (m < 10)%nat as Hlt by lia. clear Hm Hr.
  do 10 (destruct m as [|m]; [by vm_compute|]). lia.
Qed.

Lemma read_digits_digits k : ∀ j n s acc,
  read_digits (k + j) acc (digits k n s) =
  read_digits j (acc * 10 ^ Z.of_nat k + n mod 10 ^ Z.of_nat k) s.
Proof.
  induction k as [|k IH]; intros j n s acc.
  - simpl. rewrite Z.mod_1_r. f_equal. lia.
  - cbn [digits]. replace (S k + j)%nat with (k + S j)%nat by lia.
    rewrite IH. cbn [read_digits].
    destruct (digit_spec n) as (-> & _ & ->). f_equal.
    rewrite Nat2Z.inj_succ, Z.pow_succ_r by lia.
    rewrite (Z.rem_mul_r n 10 (10 ^ Z.of_nat k)) by lia. lia.
Qed.

Lemma field_digits_mod k lo hi n s :
  lo ≤ n mod 10 ^ Z.of_nat k ≤ hi →
  field k lo hi (digits k n s) = Some s.
Proof.
  intros Hrange. unfold field.
  rewrite <-(Nat.add_0_r k) at 1. rewrite read_digits_digits. simpl.
  rewrite Z.mul_0_l, Z.add_0_l.
  destruct (Z.leb_spec lo (n mod 10 ^ Z.of_nat k)),
           (Z.leb_spec (n mod 10 ^ Z.of_nat k) hi); try lia. done.
Qed.

Lemma field_digits k lo hi n s :
  lo ≤ n ≤ hi → 0 ≤ n < 10 ^ Z.of_nat k →
  field k lo hi (digits k n s) = Some s.
Proof.
  intros Hrange Hn. apply field_digits_mod. by rewrite Z.mod_small.
Qed.

Lemma expect_String c s : expect c (String c s) = Some s.
Proof. simpl. by rewrite Ascii.eqb_refl. Qed.

Lemma doy_range doe :
  0 ≤ doe < 146097 →
  let yoe := (doe - doe / 1460 + doe / 36524 - doe / 146096) / 365 in
  0 ≤ doe - (365 * yoe + yoe / 4 - yoe / 100) ≤ 365.
Proof. intros H yoe. subst yoe. Z.div_mod_to_equations. lia. Qed.

Lemma civil_from_days_range z :
  1 ≤ (civil_from_days z).1.2 ≤ 12 ∧ 1 ≤ (civil_from_days z).2 ≤ 31.
Proof.
  unfold civil_from_days. cbv zeta.
  assert (0 ≤ (z + 719468) mod 146097 < 146097) as Hdoe
    by (apply Z.mod_pos_bound; lia).
  revert Hdoe. generalize ((z + 719468) mod 146097). intros doe Hdoe.
  pose proof (doy_range doe Hdoe) as Hdoy. cbv zeta in Hdoy.
  revert Hdoy.
  generalize (doe - (365 * ((doe - doe / 1460 + doe / 36524 - doe / 146096) / 365)
    + (doe - doe / 1460 + doe / 36524 - doe / 146096) / 365 / 4
    - (doe - doe / 1460 + doe / 36524 - doe / 146096) / 365 / 100)).
  intros doy Hdoy. simpl.
  destruct (Z.ltb_spec ((5 * doy + 2) / 153) 10); Z.div_mod_to_equations; lia.
Qed.

Lemma year_field_digits y s :
  year_field (year_digits y s) = Some s.
Proof.
  unfold year_digits.
  destruct ((0 <=? y) && (y <=? 9999)) eqn:Hfour.
  - apply andb_true_iff in Hfour as [Hpos Hsmall].
    apply Z.leb_le in Hpos, Hsmall.
    cbn [digits]. unfold year_field.
    destruct (digit_spec (y / 10 / 10 / 10)) as (_ & -> & _).
    change (String (digit (y / 10 / 10 / 10)) _) with (digits 4 y s).
    apply field_digits; lia.
  - unfold year_field.
    assert (is_sign (if 0 <=? y then "+"%char else "-"%char) = true) as ->
      by (by destruct (0 <=? y)).
    apply field_digits_mod.
    pose proof (Z.mod_pos_bound (Z.abs y) (10 ^ Z.of_nat 6)). lia.
Qed.

(** Every string written by [toISOString] has the date-time format. *)
Lemma toISOString_iso8601 t : is_iso8601 (toISOString t) = true.
Proof.
  unfold is_iso8601, in_sequence, toISOString.
  cbn [foldl mbind option_bind].
  pose proof (civil_from_days_range (Day t)) as [Hmonth Hdate].
  rewrite year_field_digits. cbn [mbind option_bind].
  rewrite expect_String. cbn [mbind option_bind].
  rewrite field_digits
    by (unfold MonthFromTime; change (10 ^ Z.of_nat 2) with 100; lia).
  cbn [mbind option_bind]. rewrite expect_String. cbn [mbind option_bind].
  rewrite field_digits
    by (unfold DateFromTime; change (10 ^ Z.of_nat 2) with 100; lia).
  cbn [mbind option_bind]. rewrite expect_String. cbn [mbind option_bind].
  rewrite field_digits
    by (unfold HourFromTime; change (10 ^ Z.of_nat 2) with 100;
        pose proof (Z.mod_pos_bound (t / 3600000) 24); lia).
  cbn [mbind option_bind]. rewrite expect_String. cbn [mbind option_bind].
  rewrite field_digits
    by (unfold MinFromTime; change (10 ^ Z.of_nat 2) with 100;
        pose proof (Z.mod_pos_bound (t / 60000) 60); lia).
  cbn [mbind option_bind]. rewrite expect_String. cbn [mbind option_bind].
  rewrite field_digits
    by (unfold SecFromTime; change (10 ^ Z.of_nat 2) with 100;
        pose proof (Z.mod_pos_bound (t / 1000) 60); lia).
  cbn [mbind option_bind]. rewrite expect_String. cbn [mbind option_bind].
  rewrite field_digits
    by (unfold msFromTime; change (10 ^ Z.of_nat 3) with 1000;
        pose proof (Z.mod_pos_bound t 1000); lia).
  cbn [mbind option_bind]. by rewrite expect_String.
Qed.

End iso8601.

Lemma hexdigit_is_hex n : is_hex (hexdigit n) = true.
Proof.
  destruct n as [|p]; [reflexivity|].
  do 4 (try destruct p as [p|p|]); reflexivity.
Qed.

Lemma hexs_is_hex bs : forallb is_hex (list_ascii_of_string (hexs bs)) = true.
Proof.
  induction bs as [|b bs IH]; [reflexivity|].
  unfold hexs. cbn [foldr]. unfold hex2. cbn [list_ascii_of_string forallb].
  by rewrite !hexdigit_is_hex.
Qed.

Lemma roomId_octets rnds :
  substring 0 6 (uuidv4 rnds) = hexs [octet rnds 0; octet rnds 1; octet rnds 2].
Proof. reflexivity. Qed.

Lemma roomId_length rnds : String.length (substring 0 6 (uuidv4 rnds)) = 6.
Proof. reflexivity. Qed.

Lemma truthy_roomId r : String.length r = 6 → truthy r = true.
Proof. destruct r; [discriminate | reflexivity]. Qed.

Lemma length_slice_last {A} k (l : list A) :
  length (slice_last k l) = min k (length l).
Proof. unfold slice_last. rewrite length_drop. lia. Qed.

Lemma slice_last_suffix {A} k (l : list A) :
  take (length l - k) l ++ slice_last k l = l.
Proof. apply take_drop. Qed.

Lemma slice_last_short {A} k (l : list A) :
  length l ≤ k → slice_last k l = l.
Proof.
  intros Hle. unfold slice_last. by replace (length l - k) with 0 by lia.
Qed.

Lemma slice_last_app {A} k (l l' : list A) :
  slice_last k (slice_last k l ++ l') = slice_last k (l ++ l').
Proof.
  unfold slice_last. rewrite !length_app, length_drop.
  destruct (decide (length l ≤ k)) as [Hle|Hgt].
  - replace (length l - k) with 0 by lia. rewrite drop_0.
    f_equal. lia.
  - replace (length l - (length l - k) + length l' - k) with (length l') by lia.
    replace (length l + length l' - k) with ((length l - k) + length l') by lia.
    rewrite <-drop_drop. f_equal.
    rewrite drop_app_le by lia. done.
Qed.

(** Push, then shift when the array has grown past 100 entries. *)
Lemma push_shift_slice {A} (l : list A) x :
  length l ≤ 100 →
  (if 100 <? length (l ++ [x]) then shift (l ++ [x]) else l ++ [x]) =
  slice_last 100 (l ++ [x]).
Proof.
  intros Hle. unfold slice_last, shift. rewrite length_app. simpl.
  destruct (100 <? length l + 1) eqn:Hlt.
  - apply Nat.ltb_lt in Hlt. replace (length l + 1 - 100) with 1 by lia.
    by destruct (l ++ [x]).
  - apply Nat.ltb_ge in Hlt. by replace (length l + 1 - 100) with 0 by lia.
Qed.

Lemma forallb_pointwise {A} (f g : A → bool) (l : list A) :
  (∀ x, f x = g x) → forallb f l = forallb g l.
Proof. intros Hfg. induction l as [|x l IH]; simpl; [done|]. by rewrite Hfg, IH. Qed.

Lemma map_size_alter {A} (f : A → A) (i : string) (m : gmap string A) :
  size (alter f i m) = size m.
Proof. by rewrite <-!size_dom, dom_alter_L. Qed.

Lemma map_size_delete_le {A} (i : string) (m : gmap string A) :
  size (delete i m) ≤ size m.
Proof. rewrite map_size_delete. destruct (m !! i); simpl; lia. Qed.

Lemma lookup_delete_is_Some' {A} (i j : string) (m : gmap string A) :
  is_Some (delete i m !! j) → i ≠ j ∧ is_Some (m !! j).
Proof. rewrite lookup_delete. case_decide; [by intros [? ?]|done]. Qed.

(** ** The socket.io layer *)

Lemma lookup_socket_join sid r ss t :
  socket_join sid r ss !! t =
  if decide (sid = t)
  then (λ sk, mkSocket (roomId sk) ({[r]} ∪ sio_rooms sk)) <$> ss !! t
  else ss !! t.
Proof. unfold socket_join. rewrite lookup_alter. by case_decide; subst. Qed.

Lemma lookup_socket_leave sid r ss t :
  socket_leave sid r ss !! t =
  if decide (sid = t)
  then (λ sk, mkSocket (roomId sk) (sio_rooms sk ∖ {[r]})) <$> ss !! t
  else ss !! t.
Proof. unfold socket_leave. rewrite lookup_alter. by case_decide; subst. Qed.

Lemma lookup_set_roomId sid r ss t :
  set_roomId sid r ss !! t =
  if decide (sid = t)
  then (λ sk, mkSocket (Some r) (sio_rooms sk)) <$> ss !! t
  else ss !! t.
Proof. unfold set_roomId. rewrite lookup_alter. by case_decide; subst. Qed.

Lemma elem_of_to ss sid r t :
  t ∈ to ss sid r ↔ ∃ sk, ss !! t = Some sk ∧ r ∈ sio_rooms sk ∧ t ≠ sid.
Proof.
  unfold to. rewrite elem_of_dom. split.
  - intros [sk Hsk]. apply map_lookup_filter_Some in Hsk as [Hsk [Hr Hne]].
    eauto.
  - intros (sk & Hsk & Hr & Hne). exists sk.
    apply map_lookup_filter_Some. auto.
Qed.

Lemma sender_not_in_to ss sid r : sid ∉ to ss sid r.
Proof. rewrite elem_of_to. intros (sk & _ & _ & Hne). by apply Hne. Qed.

(** Joining a socket.io room and binding [socket.roomId], seen from any
    socket [t]. *)
Lemma lookup_join_bind sid r ss t sk' :
  set_roomId sid r (socket_join sid r ss) !! t = Some sk' →
  ∃ sk, ss !! t = Some sk ∧
        (t = sid → sk' = mkSocket (Some r) ({[r]} ∪ sio_rooms sk)) ∧
        (t ≠ sid → sk' = sk).
Proof.
  rewrite lookup_set_roomId, lookup_socket_join.
  case_decide as Heq.
  - subst t. destruct (ss !! sid) as [sk|]; simpl; [|done].
    intros [= <-]. exists sk. split_and!; [done|done|congruence].
  - intros Hsk. exists sk'. split_and!; [done|congruence|done].
Qed.

Lemma is_Some_join_bind sid r ss t :
  is_Some (set_roomId sid r (socket_join sid r ss) !! t) ↔ is_Some (ss !! t).
Proof.
  unfold set_roomId, socket_join. by rewrite !lookup_alter_is_Some.
Qed.

Lemma lookup_leave sid r ss t sk' :
  socket_leave sid r ss !! t = Some sk' →
  ∃ sk, ss !! t = Some sk ∧ roomId sk' = roomId sk ∧
        (t = sid → sio_rooms sk' = sio_rooms sk ∖ {[r]}) ∧
        (t ≠ sid → sk' = sk).
Proof.
  rewrite lookup_socket_leave. case_decide as Heq.
  - subst t. destruct (ss !! sid) as [sk|]; simpl; [|done].
    intros [= <-]. exists sk. split_and!; [done|done|done|congruence].
  - intros Hsk. exists sk'. split_and!; [done|done|congruence|done].
Qed.

(** ** Each handler preserves the invariants *)

Lemma wf_init ip : wf (init ip).
Proof.
  split; simpl; intros *.
  - by rewrite lookup_empty.
  - rewrite lookup_empty. by intros [? ?].
  - by rewrite lookup_empty.
  - by rewrite lookup_empty.
  - by rewrite lookup_empty.
Qed.

Lemma wf_connection st sid : wf st → wf (connection st sid).
Proof.
  intros Hwf. unfold connection. case_decide as Hfresh; [done|].
  assert (∀ r room, rooms st !! r = Some room → users room !! sid = None) as Hnew.
  { intros r room Hr. apply eq_None_not_Some. intros Hin.
    apply Hfresh. by eapply wf_known. }
  split; simpl.
  - apply Hwf.
  - intros t. rewrite lookup_insert. case_decide; [set_solver|].
    intros Ht. apply elem_of_union_r. by apply wf_live.
  - intros t sk r. rewrite lookup_insert. case_decide.
    + by intros [= <-].
    + by apply wf_binding.
  - intros r room t Hr Ht. apply elem_of_union_r. by eapply wf_known.
  - intros r room t sk Hr Ht. rewrite lookup_insert. case_decide.
    + subst t. rewrite (Hnew _ _ Hr) in Ht. by destruct Ht.
    + by eapply wf_joined.
Qed.

Lemma wf_createRoom st sid rnds now :
  wf st → is_Some (sockets st !! sid) → wf (createRoom st sid rnds now).1.
Proof.
  intros Hwf Hlive. unfold createRoom.
  pose proof (roomId_length rnds) as Hlen.
  revert Hlen. generalize (substring 0 6 (uuidv4 rnds)). intros rid Hlen.
  split; simpl.
  - intros r room. rewrite lookup_insert. case_decide.
    + subst r. intros [= <-]. split; simpl.
      * done.
      * exact Hlen.
      * rewrite map_size_singleton. lia.
      * rewrite map_size_singleton. lia.
      * lia.
    + by apply wf_rooms.
  - intros t. rewrite is_Some_join_bind. by apply wf_live.
  - intros t sk r Hsk. apply lookup_join_bind in Hsk as (sk0 & Hsk0 & Heq & Hne).
    destruct (decide (t = sid)) as [->|Hts].
    + rewrite (Heq eq_refl). simpl. intros [= <-]. exact Hlen.
    + rewrite (Hne Hts). by eapply wf_binding.
  - intros r room t. rewrite lookup_insert. case_decide.
    + intros [= <-]. simpl. rewrite lookup_singleton_is_Some. intros <-.
      by apply wf_live.
    + by eapply wf_known.
  - intros r room t sk Hr Ht Hsk.
    apply lookup_join_bind in Hsk as (sk0 & Hsk0 & Heq & Hne).
    rewrite lookup_insert in Hr. case_decide as Hrid.
    + subst r. injection Hr as <-. simpl in Ht.
      apply lookup_singleton_is_Some in Ht as <-.
      rewrite (Heq eq_refl). simpl. set_solver.
    + destruct (decide (t = sid)) as [->|Hts].
      * rewrite (Heq eq_refl). simpl. apply elem_of_union_r.
        by eapply wf_joined.
      * rewrite (Hne Hts). by eapply wf_joined.
Qed.

Lemma wf_joinRoom st sid roomId now :
  wf st → is_Some (sockets st !! sid) → wf (joinRoom st sid roomId now).1.
Proof.
  intros Hwf Hlive. unfold joinRoom.
  destruct (rooms st !! roomId) as [room|] eqn:Hroom; [|done].
  destruct (_ <=? _) eqn:Hfull; [done|].
  apply Nat.leb_gt in Hfull.
  pose proof (wf_rooms _ Hwf _ _ Hroom) as Hok.
  split; simpl.
  - intros r room'. rewrite lookup_insert. case_decide.
    + subst r. intros [= <-]. pose proof (ok_nonempty _ _ Hok).
      split; simpl; try apply Hok.
      * rewrite map_size_insert. destruct (users room !! sid); unfold id; lia.
      * rewrite map_size_insert. destruct (users room !! sid); unfold id; lia.
    + by apply wf_rooms.
  - intros t. rewrite is_Some_join_bind. by apply wf_live.
  - intros t sk r Hsk. apply lookup_join_bind in Hsk as (sk0 & Hsk0 & Heq & Hne).
    destruct (decide (t = sid)) as [->|Hts].
    + rewrite (Heq eq_refl). simpl. intros [= <-]. apply Hok.
    + rewrite (Hne Hts). by eapply wf_binding.
  - intros r room' t. rewrite lookup_insert. case_decide.
    + intros [= <-]. simpl. rewrite lookup_insert. case_decide.
      * subst t. intros _. by apply wf_live.
      * intros Ht. by eapply wf_known.
    + by eapply wf_known.
  - intros r room' t sk Hr Ht Hsk.
    apply lookup_join_bind in Hsk as (sk0 & Hsk0 & Heq & Hne).
    rewrite lookup_insert in Hr.
    destruct (decide (t = sid)) as [->|Hts].
    + rewrite (Heq eq_refl). simpl. case_decide as Hrid.
      * subst r. set_solver.
      * apply elem_of_union_r. eapply wf_joined; [done|exact Hr| |done].
        done.
    + rewrite (Hne Hts). case_decide as Hrid.
      * subst r. injection Hr as <-. simpl in Ht.
        rewrite lookup_insert_ne in Ht by done. by eapply wf_joined.
      * by eapply wf_joined.
Qed.

Lemma wf_sendTranscript st sid roomId text confidence now :
  wf st → wf (sendTranscript st sid roomId text confidence now).1.
Proof.
  intros Hwf. unfold sendTranscript.
  destruct (rooms st !! roomId) as [room|] eqn:Hroom; [|done].
  case_decide as Hmem; [|done].
  pose proof (wf_rooms _ Hwf _ _ Hroom) as Hok.
  generalize (toISOString (now 0)). intros ts.
  set (m := mkMessage sid text confidence ts).
  assert (∀ room', room' = (if 100 <? length (messages room ++ [m])
            then set_messages (set_messages room (messages room ++ [m]))
                   (shift (messages room ++ [m]))
            else set_messages room (messages room ++ [m])) →
          users room' = users room ∧ room_id room' = room_id room ∧
          length (messages room') ≤ 100) as Hroom'.
  { intros room' ->. destruct (_ <? _) eqn:Hlen; simpl.
    - split_and!; [done|done|]. unfold shift.
      pose proof (ok_bound _ _ Hok). rewrite length_tl, length_app. simpl. lia.
    - split_and!; [done|done|]. by apply Nat.ltb_ge in Hlen. }
  simpl. specialize (Hroom' _ eq_refl). destruct Hroom' as (Hu & Hid & Hlen).
  revert Hu Hid Hlen. generalize (if 100 <? length (messages room ++ [m])
            then set_messages (set_messages room (messages room ++ [m]))
                   (shift (messages room ++ [m]))
            else set_messages room (messages room ++ [m])).
  intros room1 Hu Hid Hlen.
  split; simpl.
  - intros r room'. rewrite lookup_insert. case_decide.
    + subst r. intros [= <-]. split; simpl.
      * rewrite Hid. apply Hok.
      * apply Hok.
      * rewrite map_size_alter, Hu. apply Hok.
      * rewrite map_size_alter, Hu. apply Hok.
      * done.
    + by apply wf_rooms.
  - apply Hwf.
  - apply Hwf.
  - intros r room' t. rewrite lookup_insert. case_decide.
    + intros [= <-]. simpl. rewrite lookup_alter_is_Some, Hu.
      intros Ht. by eapply wf_known.
    + by eapply wf_known.
  - intros r room' t sk. rewrite lookup_insert. case_decide.
    + subst r. intros [= <-]. simpl. rewrite lookup_alter_is_Some, Hu.
      intros Ht Hsk. by eapply wf_joined.
    + by eapply wf_joined.
Qed.

Lemma wf_disconnect st sid : wf st → wf (disconnect st sid).1.
Proof.
  intros Hwf. unfold disconnect.
  assert (wf (set_sockets st (delete sid (sockets st)))) as Hwf1.
  { split; simpl.
    - apply Hwf.
    - intros t Ht. apply lookup_delete_is_Some' in Ht as [_ Ht].
      by apply wf_live.
    - intros t sk r Hsk. apply lookup_delete_Some in Hsk as [_ Hsk].
      by eapply wf_binding.
    - apply Hwf.
    - intros r room t sk Hr Ht Hsk. apply lookup_delete_Some in Hsk as [_ Hsk].
      by eapply wf_joined. }
  destruct (sockets st !! sid ≫= roomId) as [r|]; [|done].
  destruct (truthy r); [|done]. cbn [rooms set_sockets].
  destruct (rooms st !! r) as [room|] eqn:Hroom; [|done].
  pose proof (wf_rooms _ Hwf _ _ Hroom) as Hok.
  destruct (_ =? _) eqn:Hsize; simpl.
  - split; simpl.
    + intros r' room'. rewrite lookup_delete. case_decide; [done|].
      by apply wf_rooms.
    + apply Hwf1.
    + apply Hwf1.
    + intros r' room' t. rewrite lookup_delete. case_decide; [done|].
      by eapply wf_known.
    + intros r' room' t sk. rewrite lookup_delete. case_decide; [done|].
      by eapply (wf_joined _ Hwf1).
  - apply Nat.eqb_neq in Hsize. simpl in Hsize.
    pose proof (map_size_delete_le sid (users room)).
    pose proof (ok_cap _ _ Hok).
    split; simpl.
    + intros r' room'. rewrite lookup_insert. case_decide.
      * subst r'. intros [= <-]. split; simpl; try apply Hok; lia.
      * by apply wf_rooms.
    + apply Hwf1.
    + apply Hwf1.
    + intros r' room' t. rewrite lookup_insert. case_decide.
      * subst r'. intros [= <-]. simpl. intros Ht.
        apply lookup_delete_is_Some' in Ht as [_ Ht]. by eapply wf_known.
      * by eapply wf_known.
    + intros r' room' t sk. rewrite lookup_insert. case_decide.
      * subst r'. intros [= <-]. simpl. intros Ht.
        apply lookup_delete_is_Some' in Ht as [_ Ht].
        by eapply (wf_joined _ Hwf1).
      * by eapply (wf_joined _ Hwf1).
Qed.

Lemma wf_leaveRoom st sid rid : wf st → wf (leaveRoom st sid rid).1.
Proof.
  intros Hwf. unfold leaveRoom.
  destruct (rooms st !! rid) as [room|] eqn:Hroom; [|done].
  case_decide as Hmem; [|done].
  pose proof (wf_rooms _ Hwf _ _ Hroom) as Hok.
  assert (∀ r room' t sk,
    (r = rid → t ≠ sid) →
    rooms st !! r = Some room' → is_Some (users room' !! t) →
    socket_leave sid rid (sockets st) !! t = Some sk → r ∈ sio_rooms sk)
    as Hjoined.
  { intros r room' t sk Hneq Hr Ht Hsk.
    apply lookup_leave in Hsk as (sk0 & Hsk0 & _ & Heq & Hne).
    pose proof (wf_joined _ Hwf _ _ _ _ Hr Ht Hsk0) as Hin.
    destruct (decide (t = sid)) as [->|Hts].
    - rewrite (Heq eq_refl). apply elem_of_difference. split; [done|].
      rewrite elem_of_singleton. intros ->. by apply Hneq.
    - by rewrite (Hne Hts). }
  assert (∀ t, is_Some (socket_leave sid rid (sockets st) !! t) →
               t ∈ issued st) as Hlive.
  { intros t. unfold socket_leave. rewrite lookup_alter_is_Some.
    by apply wf_live. }
  assert (∀ t sk r, socket_leave sid rid (sockets st) !! t = Some sk →
                    roomId sk = Some r → String.length r = 6) as Hbind.
  { intros t sk r Hsk. apply lookup_leave in Hsk as (sk0 & Hsk0 & -> & _).
    by eapply wf_binding. }
  destruct (_ =? _) eqn:Hsize; simpl.
  - split; simpl; [|done|done| |].
    + intros r' room'. rewrite lookup_delete. case_decide; [done|].
      by apply wf_rooms.
    + intros r' room' t. rewrite lookup_delete. case_decide; [done|].
      by eapply wf_known.
    + intros r' room' t sk. rewrite lookup_delete. case_decide; [done|].
      intros Hr Ht. by eapply Hjoined.
  - apply Nat.eqb_neq in Hsize. simpl in Hsize.
    pose proof (map_size_delete_le sid (users room)).
    pose proof (ok_cap _ _ Hok).
    split; simpl; [|done|done| |].
    + intros r' room'. rewrite lookup_insert. case_decide.
      * subst r'. intros [= <-]. split; simpl; try apply Hok; lia.
      * by apply wf_rooms.
    + intros r' room' t. rewrite lookup_insert. case_decide.
      * subst r'. intros [= <-]. simpl. intros Ht.
        apply lookup_delete_is_Some' in Ht as [_ Ht]. by eapply wf_known.
      * by eapply wf_known.
    + intros r' room' t sk. rewrite lookup_insert. case_decide.
      * subst r'. intros [= <-]. simpl. intros Ht.
        apply lookup_delete_is_Some' in Ht as [Hne Ht].
        eapply Hjoined; [|done|done]. intros _. congruence.
      * intros Hr Ht. by eapply Hjoined.
Qed.

Lemma wf_step st ev : wf st → wf (step st ev).1.
Proof.
  intros Hwf. destruct ev; simpl.
  - by apply wf_connection.
  - destruct (sockets st !! sid) eqn:?; [|done]. by apply wf_createRoom.
  - destruct (sockets st !! sid) eqn:?; [|done]. by apply wf_joinRoom.
  - destruct (sockets st !! sid) eqn:?; [|done]. by apply wf_sendTranscript.
  - destruct (sockets st !! sid) eqn:?; [|done]. by apply wf_disconnect.
  - destruct (sockets st !! sid) eqn:?; [|done]. by apply wf_leaveRoom.
Qed.

Lemma wf_run evs : ∀ st, wf st → wf (run st evs).1.
Proof.
  induction evs as [|ev evs IH]; intros st Hwf; simpl; [done|].
  pose proof (wf_step st ev Hwf) as Hstep.
  destruct (step st ev) as [st1 out1]. specialize (IH st1 Hstep).
  by destruct (run st1 evs).
Qed.

Lemma reachable_wf st : reachable st → wf st.
Proof. intros (ip & evs & ->). apply wf_run, wf_init. Qed.

Lemma run_app evs1 evs2 st :
  (run st (evs1 ++ evs2)).1 = (run (run st evs1).1 evs2).1.
Proof.
  revert st. induction evs1 as [|ev evs1 IH]; intros st; simpl; [done|].
  destruct (step st ev) as [st1 out1]. specialize (IH st1).
  destruct (run st1 (evs1 ++ evs2)), (run st1 evs1). simpl in *.
  rewrite IH. by destruct (run _ evs2).
Qed.

Lemma reachable_init ip : reachable (init ip).
Proof. by exists ip, []. Qed.

Lemma reachable_run st evs : reachable st → reachable (run st evs).1.
Proof. intros (ip & evs0 & ->). exists ip, (evs0 ++ evs). by rewrite run_app. Qed.

(** The scenarios are reachable states. *)
Ltac reachable_scenario :=
  repeat match goal with
         | |- reachable (init _) => apply reachable_init
         | |- reachable (fst (run _ _)) => apply reachable_run
         | |- reachable ?st => unfold st
         end.

(** ** Observations *)

Lemma step_live st ev sk :
  sockets st !! socket_of ev = Some sk →
  step st ev =
  match ev with
  | Connection sid => (connection st sid, [])
  | CreateRoom sid rnds now => createRoom st sid rnds now
  | JoinRoom sid roomId now => joinRoom st sid roomId now
  | SendTranscript sid roomId text confidence now =>
      sendTranscript st sid roomId text confidence now
  | Disconnect sid => disconnect st sid
  | LeaveRoom sid roomId => leaveRoom st sid roomId
  end.
Proof. intros Hsk. destruct ev; simpl in *; by rewrite ?Hsk. Qed.

Lemma is_member_true st sid r :
  is_member st sid r = true ↔
  ∃ room, rooms st !! r = Some room ∧ is_Some (users room !! sid).
Proof.
  unfold is_member. destruct (rooms st !! r) as [room|].
  - rewrite bool_decide_eq_true. split.
    + intros Hin. by exists room.
    + by intros (room' & [= <-] & Hin).
  - split; [done|]. by intros (room' & [=] & _).
Qed.

Lemma is_member_false st sid r :
  is_member st sid r = false ↔
  ∀ room, rooms st !! r = Some room → users room !! sid = None.
Proof.
  rewrite <-not_true_iff_false, is_member_true. split.
  - intros Hno room Hroom. apply eq_None_not_Some. naive_solver.
  - intros Hno (room & Hroom & Hin). rewrite (Hno _ Hroom) in Hin.
    by destruct Hin.
Qed.

Lemma participant_is_member st r t :
  is_member st t r = true ↔ is_Some (participant st r t).
Proof.
  rewrite is_member_true. unfold participant.
  destruct (rooms st !! r) as [room|]; simpl.
  - split; [by intros (? & [= <-] & ?)|]. intros Hin. by exists room.
  - split; [by intros (? & [=] & _)|]. by intros [? [=]].
Qed.

Lemma elem_of_recorded_in st sid r :
  r ∈ recorded_in st sid ↔ is_member st sid r = true.
Proof.
  unfold recorded_in. rewrite elem_of_dom, is_member_true. split.
  - intros [room Hroom]. apply map_lookup_filter_Some in Hroom as [Hroom Hin].
    by exists room.
  - intros (room & Hroom & Hin). exists room. by apply map_lookup_filter_Some.
Qed.

Lemma live_member_in_to st sid r t :
  wf st → t ≠ sid → is_member st t r = true → is_Some (sockets st !! t) →
  t ∈ to (sockets st) sid r.
Proof.
  intros Hwf Hne Hmem [sk Hsk].
  apply is_member_true in Hmem as (room & Hroom & Hin).
  apply elem_of_to. exists sk. split_and!; [done| |done].
  by eapply wf_joined.
Qed.

(** ** [createRoom] *)

(** C9: [createRoom] always answers with success and a six-character
    room identifier (of lower-case hexadecimal digits); afterwards the
    registry holds, under that identifier, a room whose only participant is
    the requesting socket and whose transcript is empty. *)
Theorem createRoom_succeeds st sid rnds now :
  ∃ rid room,
    (createRoom st sid rnds now).2 = [Reply sid (CreateOk rid (localIP st))] ∧
    String.length rid = 6 ∧
    forallb is_hex (list_ascii_of_string rid) = true ∧
    rooms (createRoom st sid rnds now).1 !! rid = Some room ∧
    room_id room = rid ∧
    users room = {[ sid := mkUser sid (now 0) (now 1) ]} ∧
    dom (users room) = {[ sid ]} ∧
    messages room = [].
Proof.
  eexists _, _. split_and!.
  - reflexivity.
  - exact (roomId_length rnds).
  - rewrite roomId_octets. apply hexs_is_hex.
  - cbn [createRoom fst rooms set_rooms set_sockets]. apply lookup_insert_eq.
  - reflexivity.
  - reflexivity.
  - cbn [users]. apply dom_singleton_L.
  - reflexivity.
Qed.

(** ** [joinRoom] *)

Lemma joinRoom_not_found st sid r now :
  rooms st !! r = None →
  joinRoom st sid r now = (st, [Reply sid (Failure "Room not found")]).
Proof. intros Hnone. unfold joinRoom. by rewrite Hnone. Qed.

Lemma joinRoom_ok_state st sid roomId now room :
  rooms st !! roomId = Some room → size (users room) < 10 →
  let users' := <[sid := mkUser sid (now 0) (now 1)]> (users room) in
  let sockets' := set_roomId sid roomId (socket_join sid roomId (sockets st)) in
  joinRoom st sid roomId now =
    (mkState (localIP st)
       (<[roomId := set_users room users']> (rooms st)) sockets' (issued st),
     [Reply sid (JoinOk (size users') (slice_last 50 (messages room)));
      Emit (to sockets' sid roomId) (userJoined sid (size users'))]).
Proof.
  intros Hroom Hlt. unfold joinRoom. rewrite Hroom.
  apply Nat.leb_gt in Hlt. by rewrite Hlt.
Qed.

Lemma joinRoom_userCount st sid roomId room now :
  rooms st !! roomId = Some room → size (users room) < 10 →
  userCount (joinRoom st sid roomId now).1 roomId =
    if is_member st sid roomId then size (users room) else S (size (users room)).
Proof.
  intros Hroom Hlt. unfold joinRoom, is_member, userCount. rewrite Hroom.
  apply Nat.leb_gt in Hlt. rewrite Hlt. simpl.
  rewrite lookup_insert_eq. simpl. rewrite map_size_insert.
  destruct (users room !! sid) as [u|] eqn:Hu.
  - rewrite bool_decide_eq_true_2; [done|by eexists].
  - rewrite bool_decide_eq_false_2; [done|]. by intros [? ?].
Qed.

(** C10: a [joinRoom] that is answered with a failure changes nothing:
    the state after it is the state before it (registry, participants,
    socket bindings and socket.io rooms alike), and the failure reply is its
    only output, so no event is broadcast.  It fails either because the
    room is not in the registry or because the room holds ten
    participants. *)
Theorem joinRoom_failure_atomic st sid roomId now error :
  Reply sid (Failure error) ∈ (joinRoom st sid roomId now).2 →
  joinRoom st sid roomId now = (st, [Reply sid (Failure error)]) ∧
  (step st (JoinRoom sid roomId now)).1 = st ∧
  ((rooms st !! roomId = None ∧ error = "Room not found") ∨
   (10 ≤ userCount st roomId ∧ error = "Room is full")).
Proof.
  intros Hfail.
  assert (joinRoom st sid roomId now = (st, [Reply sid (Failure error)]) ∧
          ((rooms st !! roomId = None ∧ error = "Room not found") ∨
           (10 ≤ userCount st roomId ∧ error = "Room is full"))) as [Heq Hwhy].
  { revert Hfail. unfold joinRoom, userCount.
    destruct (rooms st !! roomId) as [room|].
    - destruct (10 <=? size (users room)) eqn:Hfull; simpl.
      + rewrite list_elem_of_singleton. intros [= <-]. split; [done|].
        right. split; [|done]. by apply Nat.leb_le.
      + intros Hin. apply elem_of_cons in Hin as [[=]|Hin].
        apply list_elem_of_singleton in Hin. discriminate.
    - simpl. rewrite list_elem_of_singleton. intros [= <-]. split; [done|].
      by left. }
  split_and!; [done| |done].
  simpl. destruct (sockets st !! sid); [|done]. by rewrite Heq.
Qed.

Lemma joinRoom_failure_atomic_witness :
  joinRoom lobby "s2" "abcdef" clock0 =
    (lobby, [Reply "s2" (Failure "Room not found")]) ∧
  (step lobby (JoinRoom "s2" "abcdef" clock0)).1 = lobby ∧
  ((rooms lobby !! "abcdef" = None ∧ "Room not found" = "Room not found") ∨
   (10 ≤ userCount lobby "abcdef" ∧ "Room not found" = "Room is full")).
Proof.
  apply joinRoom_failure_atomic. vm_compute. apply list_elem_of_here.
Defined.

(** A session that is already in a room of nine may join it again: the
    request succeeds and the room still has nine participants. *)
Lemma rejoin_at_nine_stays_nine :
  userCount nine_members "000000" = 9 ∧
  is_member nine_members "s1" "000000" = true ∧
  head (joinRoom nine_members "s1" "000000" clock0).2 =
    Some (Reply "s1" (JoinOk 9 [])) ∧
  userCount (joinRoom nine_members "s1" "000000" clock0).1 "000000" = 9.
Proof. vm_compute. done. Qed.

(** C3 (amended): [joinRoom] on a room of the registry fails with
    "Room is full" exactly when the room has at least ten participants.
    A join by a session that is not yet in the room, while the room has
    nine participants, succeeds, answers with the count 10 and brings the
    room to ten participants; a join by a session that is already in the
    room succeeds and leaves the count as it was.  In every reachable
    state a room has at most ten participants. *)
Theorem joinRoom_capacity st sid roomId room now :
  rooms st !! roomId = Some room →
  ((joinRoom st sid roomId now).2 = [Reply sid (Failure "Room is full")]
     ↔ 10 ≤ size (users room)) ∧
  (size (users room) = 9 → is_member st sid roomId = false →
     head (joinRoom st sid roomId now).2 =
       Some (Reply sid (JoinOk 10 (slice_last 50 (messages room)))) ∧
     userCount (joinRoom st sid roomId now).1 roomId = 10) ∧
  (size (users room) < 10 → is_member st sid roomId = true →
     head (joinRoom st sid roomId now).2 =
       Some (Reply sid (JoinOk (size (users room))
                          (slice_last 50 (messages room)))) ∧
     userCount (joinRoom st sid roomId now).1 roomId = size (users room)) ∧
  (reachable st → size (users room) ≤ 10).
Proof.
  intros Hroom. split_and!.
  - unfold joinRoom. rewrite Hroom.
    destruct (10 <=? size (users room)) eqn:Hfull; simpl.
    + apply Nat.leb_le in Hfull. done.
    + apply Nat.leb_gt in Hfull. split; [discriminate|lia].
  - intros Hnine Hnew.
    pose proof (joinRoom_userCount st sid roomId room now Hroom) as Hcount.
    rewrite Hnew, Hnine in Hcount. split; [|apply Hcount; lia].
    unfold joinRoom. rewrite Hroom.
    replace (10 <=? size (users room)) with false
      by (symmetry; apply Nat.leb_gt; lia).
    simpl. rewrite map_size_insert.
    unfold is_member in Hnew. rewrite Hroom in Hnew.
    apply bool_decide_eq_false in Hnew.
    destruct (users room !! sid) eqn:Hu; [destruct Hnew; by eexists|].
    simpl. by rewrite Hnine.
  - intros Hlt Hold.
    pose proof (joinRoom_userCount st sid roomId room now Hroom Hlt) as Hcount.
    rewrite Hold in Hcount. split; [|done].
    unfold joinRoom. rewrite Hroom.
    replace (10 <=? size (users room)) with false
      by (symmetry; apply Nat.leb_gt; lia).
    simpl. rewrite map_size_insert.
    unfold is_member in Hold. rewrite Hroom in Hold.
    apply bool_decide_eq_true in Hold as [u Hu]. by rewrite Hu.
  - intros Hreach. eapply ok_cap, wf_rooms; [|done]. by apply reachable_wf.
Qed.

Lemma joinRoom_capacity_witness :
  userCount (joinRoom nine_members "s10" "000000" clock0).1 "000000" = 10 ∧
  userCount nine_members "000000" ≤ 10.
Proof.
  destruct (rooms nine_members !! "000000") as [room|] eqn:Hroom;
    [|by vm_compute in Hroom].
  destruct (joinRoom_capacity nine_members "s10" "000000" room clock0 Hroom)
    as (_ & Hnine & _ & Hcap).
  unfold userCount at 2. rewrite Hroom.
  vm_compute in Hroom. injection Hroom as <-.
  split.
  - apply Hnine; vm_compute; reflexivity.
  - apply Hcap. reachable_scenario.
Defined.

(** A room keeps the record of a socket that disconnected while bound to
    another room.  When a second socket joins that room the count is 2,
    and [userJoined] is emitted to nobody: the recorded participant is not
    a live socket. *)
Lemma userJoined_misses_stale_record :
  participants stale_record "000000" = {[ "s1" ]} ∧
  sockets stale_record !! "s1" = None ∧
  (joinRoom stale_record "s2" "000000" clock0).2 =
    [Reply "s2" (JoinOk 2 []); Emit ∅ (userJoined "s2" 2)] ∧
  participants joined_stale "000000" = {[ "s1"; "s2" ]}.
Proof. vm_compute. done. Qed.

(** C5 (amended): when [joinRoom] answers with success, the [userCount]
    of the answer is the number of participants of the room in the state
    after the request, in which the joiner is a participant, and the
    [userJoined] event carries the same number; the backfill of the answer
    is the last 50 messages of the transcript (all of them when there are
    fewer), in transcript order; and [userJoined] is emitted to a set of
    sockets that contains every other participant of the room that is a
    live socket and does not contain the joiner. *)
Theorem joinRoom_success st sid roomId now n backfill rest :
  reachable st →
  (joinRoom st sid roomId now).2 = Reply sid (JoinOk n backfill) :: rest →
  let st' := (joinRoom st sid roomId now).1 in
  n = userCount st' roomId ∧
  is_member st' sid roomId = true ∧
  n = (if is_member st sid roomId then userCount st roomId
       else S (userCount st roomId)) ∧
  transcript st' roomId = transcript st roomId ∧
  backfill = slice_last 50 (transcript st roomId) ∧
  length backfill = min 50 (length (transcript st roomId)) ∧
  (∃ older, transcript st roomId = older ++ backfill) ∧
  (∃ recipients,
     rest = [Emit recipients (userJoined sid n)] ∧
     (sid ∉ recipients) ∧
     (∀ t, t ≠ sid → is_member st' t roomId = true →
           is_Some (sockets st' !! t) → t ∈ recipients)).
Proof.
  intros Hreach Hout st'. apply reachable_wf in Hreach as Hwf.
  destruct (rooms st !! roomId) as [room|] eqn:Hroom.
  2:{ rewrite joinRoom_not_found in Hout by done. discriminate. }
  destruct (decide (size (users room) < 10)) as [Hlt|Hfull].
  2:{ unfold joinRoom in Hout. rewrite Hroom in Hout.
      replace (10 <=? size (users room)) with true in Hout
        by (symmetry; apply Nat.leb_le; lia).
      discriminate. }
  pose proof (joinRoom_userCount st sid roomId room now Hroom Hlt) as Hcount.
  pose proof (joinRoom_ok_state st sid roomId now room Hroom Hlt) as Heq.
  cbv zeta in Heq. fold st' in Hcount.
  assert (transcript st roomId = messages room) as Hold
    by (unfold transcript; by rewrite Hroom).
  assert (userCount st roomId = size (users room)) as Hsize
    by (unfold userCount; by rewrite Hroom).
  assert (userCount st' roomId =
          size (<[sid := mkUser sid (now 0) (now 1)]> (users room))) as Hn.
  { subst st'. rewrite Heq. unfold userCount. simpl.
    by rewrite lookup_insert_eq. }
  assert (is_member st' sid roomId = true) as Hin.
  { subst st'. rewrite Heq. unfold is_member. simpl.
    rewrite lookup_insert_eq. simpl. rewrite lookup_insert_eq.
    by apply bool_decide_eq_true_2. }
  assert (transcript st' roomId = transcript st roomId) as Hsame.
  { subst st'. rewrite Heq. unfold transcript. simpl.
    by rewrite lookup_insert_eq, Hroom. }
  rewrite Heq in Hout. cbn [snd] in Hout. injection Hout as <- <- <-.
  rewrite Hold, Hsize, <-Hn. split_and!; [done|done|done|by rewrite <-Hold| | | |].
  - done.
  - apply length_slice_last.
  - eexists. symmetry. apply slice_last_suffix.
  - eexists. split_and!; [reflexivity|apply sender_not_in_to|].
    intros t Hne Hmem [sk' Hsk']. subst st'. rewrite Heq in Hmem, Hsk'.
    cbn [fst sockets] in Hsk'.
    apply lookup_join_bind in Hsk' as (sk & Hsk & _ & Hother).
    specialize (Hother Hne) as ->.
    apply is_member_true in Hmem as (room' & Hroom' & Ht).
    cbn [fst rooms] in Hroom'. rewrite lookup_insert_eq in Hroom'.
    injection Hroom' as <-. cbn [users set_users] in Ht.
    rewrite lookup_insert_ne in Ht by done.
    apply elem_of_to. exists sk. split_and!; [|by eapply wf_joined|done].
    rewrite lookup_set_roomId, lookup_socket_join.
    by rewrite !decide_False by done.
Qed.

Lemma joinRoom_success_witness :
  let st' := (joinRoom chatting "s2" "000000" clock0).1 in
  let message :=
    mkMessage "s1" "hello" (9 # 10) "2023-11-14T22:13:20.000Z" in
  2 = userCount st' "000000" ∧
  is_member st' "s2" "000000" = true ∧
  [message] = slice_last 50 (transcript chatting "000000") ∧
  ∃ recipients,
    [Emit {[ "s1" ]} (userJoined "s2" 2)] =
      [Emit recipients (userJoined "s2" 2)] ∧
    ("s2" ∉ recipients) ∧
    (∀ t, t ≠ "s2" → is_member st' t "000000" = true →
          is_Some (sockets st' !! t) → t ∈ recipients).
Proof.
  assert (reachable chatting) as Hreach
    by reachable_scenario.
  assert ((joinRoom chatting "s2" "000000" clock0).2 =
          Reply "s2" (JoinOk 2
            [mkMessage "s1" "hello" (9 # 10) "2023-11-14T22:13:20.000Z"])
          :: [Emit {[ "s1" ]} (userJoined "s2" 2)]) as Hout
    by (vm_compute; reflexivity).
  destruct (joinRoom_success chatting "s2" "000000" clock0 _ _ _ Hreach Hout)
    as (Hn & Hin & _ & _ & Hback & _ & _ & Hrec).
  split_and!; [exact Hn|exact Hin|exact Hback|exact Hrec].
Defined.

(** ** [sendTranscript] *)

(** C6: a [sendTranscript] whose sender is not a member of the named
    room, or that names a room absent from the registry, sends nothing and
    leaves the whole state (every transcript, every participant map, the
    registry) as it was. *)
Theorem sendTranscript_non_member_dropped st sid roomId text confidence now :
  is_member st sid roomId = false →
  sendTranscript st sid roomId text confidence now = (st, []) ∧
  step st (SendTranscript sid roomId text confidence now) = (st, []).
Proof.
  intros Hmem.
  assert (sendTranscript st sid roomId text confidence now = (st, [])) as Hdrop.
  { unfold sendTranscript. unfold is_member in Hmem.
    destruct (rooms st !! roomId) as [room|]; [|done].
    case_decide as Hin; [|done]. by rewrite bool_decide_eq_false in Hmem. }
  split; [done|]. simpl. by destruct (sockets st !! sid).
Qed.

Lemma sendTranscript_non_member_dropped_witness :
  sendTranscript lobby "s2" "000000" "hello" (9 # 10) clock0 = (lobby, []) ∧
  step lobby (SendTranscript "s2" "000000" "hello" (9 # 10) clock0) = (lobby, []).
Proof. apply sendTranscript_non_member_dropped. vm_compute. reflexivity. Defined.

(** What a member's [sendTranscript] does to the state. *)
Lemma sendTranscript_ok_state st sid roomId text confidence now room :
  rooms st !! roomId = Some room → is_Some (users room !! sid) →
  length (messages room) ≤ 100 →
  let message := mkMessage sid text confidence (toISOString (now 0)) in
  sendTranscript st sid roomId text confidence now =
    (set_rooms st
       (<[roomId :=
            mkRoom (room_id room)
              (alter (λ u, mkUser (user_id u) (joinedAt u) (now 1)) sid
                 (users room))
              (createdAt room)
              (slice_last 100 (messages room ++ [message]))]> (rooms st)),
     [Emit (to (sockets st) sid roomId) (receiveTranscript message)]).
Proof.
  intros Hroom Hin Hlen. unfold sendTranscript. rewrite Hroom.
  rewrite decide_True by done. cbv zeta.
  generalize (toISOString (now 0)). intros ts.
  rewrite <-(push_shift_slice (messages room)) by done.
  cbn [messages set_messages].
  destruct (100 <? _); reflexivity.
Qed.

(** In the room of the previous scenario, the message of the second socket
    is emitted to nobody although the room records another participant. *)
Lemma receiveTranscript_misses_stale_record :
  participants joined_stale "000000" = {[ "s1"; "s2" ]} ∧
  sockets joined_stale !! "s1" = None ∧
  (sendTranscript joined_stale "s2" "000000" "hello" (9 # 10) clock0).2 =
    [Emit ∅ (receiveTranscript
       (mkMessage "s2" "hello" (9 # 10) "2023-11-14T22:13:20.000Z"))].
Proof. vm_compute. done. Qed.

(** C7 (amended): a [sendTranscript] from a participant of the named
    room appends to the room's transcript the message made of the sender's
    id, the text and confidence of the request and the ISO 8601 rendering
    of the server's clock (the oldest entry making room when the
    transcript held 100); that same message is emitted as
    [receiveTranscript] to a set of sockets that contains every other
    participant of the room that is a live socket and does not contain the
    sender; the sender's [lastActive] is set to the clock and every other
    participant record, of this and of every other room, is as before. *)
Theorem sendTranscript_member st sid roomId text confidence now u :
  reachable st →
  participant st roomId sid = Some u →
  let message := mkMessage sid text confidence (toISOString (now 0)) in
  let st' := (sendTranscript st sid roomId text confidence now).1 in
  transcript st' roomId = slice_last 100 (transcript st roomId ++ [message]) ∧
  (length (transcript st roomId) < 100 →
     transcript st' roomId = transcript st roomId ++ [message]) ∧
  last (transcript st' roomId) = Some message ∧
  is_iso8601 (timestamp message) = true ∧
  (∃ recipients,
     (sendTranscript st sid roomId text confidence now).2 =
       [Emit recipients (receiveTranscript message)] ∧
     (sid ∉ recipients) ∧
     (∀ t, t ≠ sid → is_member st t roomId = true →
           is_Some (sockets st !! t) → t ∈ recipients)) ∧
  participant st' roomId sid =
    Some (mkUser (user_id u) (joinedAt u) (now 1)) ∧
  (∀ r t, ¬ (r = roomId ∧ t = sid) →
     participant st' r t = participant st r t).
Proof.
  intros Hreach Hu message st'. apply reachable_wf in Hreach as Hwf.
  unfold participant in Hu.
  destruct (rooms st !! roomId) as [room|] eqn:Hroom; [|done]. simpl in Hu.
  pose proof (ok_bound _ _ (wf_rooms _ Hwf _ _ Hroom)) as Hlen.
  pose proof (sendTranscript_ok_state st sid roomId text confidence now
                room Hroom (mk_is_Some _ _ Hu) Hlen) as Heq.
  cbv zeta in Heq. fold message in Heq.
  assert (transcript st roomId = messages room) as Hold
    by (unfold transcript; by rewrite Hroom).
  assert (transcript st' roomId =
          slice_last 100 (messages room ++ [message])) as Hnew.
  { subst st'. rewrite Heq. unfold transcript. cbn [fst rooms set_rooms].
    by rewrite lookup_insert_eq. }
  assert (∀ r t, participant st' r t =
    if decide (r = roomId)
    then alter (λ u, mkUser (user_id u) (joinedAt u) (now 1)) sid
           (users room) !! t
    else participant st r t) as Hpart.
  { intros r t. subst st'. rewrite Heq. unfold participant.
    cbn [fst rooms set_rooms]. case_decide as Hr.
    - subst r. by rewrite lookup_insert_eq.
    - by rewrite lookup_insert_ne. }
  rewrite Hnew, Hold, Heq. cbn [snd]. split_and!.
  - done.
  - intros Hlt. apply slice_last_short. rewrite length_app. simpl. lia.
  - unfold slice_last. rewrite length_app, drop_app_le by (simpl; lia).
    apply last_snoc.
  - apply toISOString_iso8601.
  - eexists. split_and!; [reflexivity|apply sender_not_in_to|].
    intros t Hne Hmem Hlive. by apply live_member_in_to.
  - rewrite Hpart, decide_True by done. by rewrite lookup_alter_eq, Hu.
  - intros r t Hne. rewrite Hpart. case_decide as Hr; [|done].
    subst r. unfold participant. rewrite Hroom. simpl.
    apply lookup_alter_ne. intros ->. by apply Hne.
Qed.

Lemma sendTranscript_member_witness :
  let st' :=
    (sendTranscript nine_members "s1" "000000" "hello" (9 # 10) clock0).1 in
  let message :=
    mkMessage "s1" "hello" (9 # 10) "2023-11-14T22:13:20.000Z" in
  transcript st' "000000" = [message] ∧
  (∃ recipients,
     (sendTranscript nine_members "s1" "000000" "hello" (9 # 10) clock0).2 =
       [Emit recipients (receiveTranscript message)] ∧
     ("s1" ∉ recipients) ∧ ("s2" ∈ recipients)) ∧
  participant st' "000000" "s1" =
    Some (mkUser "s1" 1700000000000 1700000000001).
Proof.
  assert (reachable nine_members) as Hreach
    by reachable_scenario.
  assert (participant nine_members "000000" "s1" =
          Some (mkUser "s1" 1700000000000 1700000000001)) as Hu
    by (vm_compute; reflexivity).
  destruct (sendTranscript_member nine_members "s1" "000000" "hello" (9 # 10)
              clock0 _ Hreach Hu)
    as (_ & Happend & _ & _ & (rec & Hout & Hself & Hothers) & Hactive & _).
  split_and!.
  - apply Happend. vm_compute. lia.
  - exists rec. split_and!; [exact Hout|exact Hself|].
    apply Hothers; [done|vm_compute; reflexivity|vm_compute; by eexists].
  - exact Hactive.
Defined.

Lemma run_sends sends : ∀ st roomId,
  wf st → forallb (can_send st roomId) sends = true →
  transcript (run st (map (send_event roomId) sends)).1 roomId =
    slice_last 100 (transcript st roomId ++ map message_of sends).
Proof.
  induction sends as [|s sends IH]; intros st roomId Hwf Hcan.
  - simpl. rewrite app_nil_r. symmetry. apply slice_last_short.
    unfold transcript. destruct (rooms st !! roomId) as [room|] eqn:Hroom.
    + eapply ok_bound, wf_rooms; done.
    + simpl. lia.
  - cbn [forallb] in Hcan. apply andb_true_iff in Hcan as [Hs Hcan].
    apply andb_true_iff in Hs as [Hmem Hlive].
    apply bool_decide_eq_true in Hlive as [sk Hsk].
    apply is_member_true in Hmem as (room & Hroom & Hin).
    pose proof (ok_bound _ _ (wf_rooms _ Hwf _ _ Hroom)) as Hlen.
    cbn [map run].
    rewrite (step_live st (send_event roomId s) sk) by done.
    cbn [send_event].
    pose proof (wf_sendTranscript st (send_sid s) roomId (send_text s)
                  (send_confidence s) (send_now s) Hwf) as Hwf1.
    pose proof (sendTranscript_ok_state st (send_sid s) roomId
                  (send_text s) (send_confidence s) (send_now s) room
                  Hroom Hin Hlen) as Heq.
    cbv zeta in Heq. fold (message_of s) in Heq. rewrite Heq in Hwf1 |- *.
    cbn [fst] in Hwf1.
    match goal with
    | |- context [run ?st1 _] => set (st1' := st1) in *
    end.
    specialize (IH st1' roomId Hwf1).
    destruct (run st1' (map (send_event roomId) sends)) as [st2 out2] eqn:Hrun.
    cbn [fst] in IH |- *. rewrite IH.
    + assert (transcript st1' roomId =
              slice_last 100 (transcript st roomId ++ [message_of s])) as ->.
      { unfold transcript, st1'. cbn [rooms set_rooms].
        by rewrite lookup_insert_eq, Hroom. }
      rewrite slice_last_app. by rewrite <-app_assoc.
    + rewrite <-Hcan. apply forallb_pointwise. intros s'. unfold can_send. f_equal.
      unfold is_member, st1'. cbn [rooms set_rooms].
      destruct (decide (roomId = roomId)) as [_|]; [|done].
      rewrite lookup_insert_eq, Hroom. cbn [users].
      apply bool_decide_ext. apply lookup_alter_is_Some.
Qed.

(** C1: in every reachable state every transcript has at most 100
    entries.  A sequence of appends by live participants leaves the
    transcript holding the last 100 of the old entries followed by the new
    ones, in order, so an append to a full transcript drops its oldest
    entry; after 101 appends to a room with an empty transcript the
    transcript is the 2nd to 101st message, in the order they were
    appended, and the first one is gone. *)
Theorem transcript_bounded st roomId sends :
  reachable st →
  length (transcript st roomId) ≤ 100 ∧
  (forallb (can_send st roomId) sends = true →
   let st' := (run st (map (send_event roomId) sends)).1 in
   transcript st' roomId =
     slice_last 100 (transcript st roomId ++ map message_of sends) ∧
   (transcript st roomId = [] → length sends = 101 →
    transcript st' roomId = drop 1 (map message_of sends))).
Proof.
  intros Hreach. apply reachable_wf in Hreach as Hwf. split.
  - unfold transcript. destruct (rooms st !! roomId) as [room|] eqn:Hroom.
    + eapply ok_bound, wf_rooms; done.
    + simpl. lia.
  - intros Hcan st'. pose proof (run_sends sends st roomId Hwf Hcan) as Heq.
    fold st' in Heq. split; [done|].
    intros Hfresh Hlen. rewrite Heq, Hfresh. simpl.
    unfold slice_last. by rewrite length_map, Hlen.
Qed.

Lemma transcript_bounded_witness :
  let st' := (run lobby (map (send_event "000000") hundred_and_one)).1 in
  length (transcript lobby "000000") ≤ 100 ∧
  transcript st' "000000" = drop 1 (map message_of hundred_and_one) ∧
  head (transcript st' "000000") =
    Some (mkMessage "s1" "hello" (9 # 10) "2023-11-14T22:13:21.000Z").
Proof.
  assert (reachable lobby) as Hreach by reachable_scenario.
  destruct (transcript_bounded lobby "000000" hundred_and_one Hreach)
    as [Hbound Hsends].
  destruct Hsends as [_ Hfifo]; [vm_compute; reflexivity|].
  split_and!; [exact Hbound| |].
  - apply Hfifo; vm_compute; reflexivity.
  - cbv zeta. rewrite Hfifo by (vm_compute; reflexivity).
    vm_compute. reflexivity.
Defined.

(** ** Departure: [leaveRoom] and [disconnect] *)

Lemma last_member_size st sid r room :
  rooms st !! r = Some room → is_Some (users room !! sid) →
  size (users room) = 1 → size (delete sid (users room)) = 0.
Proof.
  intros _ Hin Hone. rewrite map_size_delete_Some by done. by rewrite Hone.
Qed.

Lemma leaveRoom_last st sid r :
  is_member st sid r = true → userCount st r = 1 →
  rooms (leaveRoom st sid r).1 !! r = None.
Proof.
  intros Hmem Hone. apply is_member_true in Hmem as (room & Hroom & Hin).
  unfold userCount in Hone. rewrite Hroom in Hone.
  unfold leaveRoom. rewrite Hroom. rewrite decide_True by done. simpl.
  rewrite (last_member_size st sid r room) by done. simpl.
  apply lookup_delete_eq.
Qed.

Lemma disconnect_last st sid r :
  String.length r = 6 →
  bound_room st sid = Some r → is_member st sid r = true → userCount st r = 1 →
  rooms (disconnect st sid).1 !! r = None.
Proof.
  intros Hlen Hbound Hmem Hone.
  apply is_member_true in Hmem as (room & Hroom & Hin).
  unfold userCount in Hone. rewrite Hroom in Hone.
  unfold disconnect. unfold bound_room in Hbound. rewrite Hbound.
  rewrite truthy_roomId by done. simpl. rewrite Hroom.
  rewrite (last_member_size st sid r room) by done. simpl.
  apply lookup_delete_eq.
Qed.

(** C2: no reachable state has a room without participants in its
    registry.  When the last participant of a room leaves it, or
    disconnects while bound to it, the room is gone from the registry in
    the very next state, and a [joinRoom] naming it, from any live socket,
    is answered "Room not found" (and changes nothing). *)
Theorem empty_room_removed st sid roomId ev :
  reachable st →
  (∀ r, rooms st !! r ≠ None → 0 < userCount st r) ∧
  (is_Some (sockets st !! sid) →
   is_member st sid roomId = true → userCount st roomId = 1 →
   ev = LeaveRoom sid roomId ∨
     (ev = Disconnect sid ∧ bound_room st sid = Some roomId) →
   rooms (step st ev).1 !! roomId = None ∧
   ∀ sid' now, is_Some (sockets (step st ev).1 !! sid') →
     step (step st ev).1 (JoinRoom sid' roomId now) =
       ((step st ev).1, [Reply sid' (Failure "Room not found")])).
Proof.
  intros Hreach. apply reachable_wf in Hreach as Hwf. split.
  - intros r Hr. unfold userCount.
    destruct (rooms st !! r) as [room|] eqn:Hroom; [|done].
    eapply ok_nonempty, wf_rooms; done.
  - intros [sk Hsk] Hmem Hone Hev.
    assert (rooms (step st ev).1 !! roomId = None) as Hgone.
    { destruct Hev as [->|[-> Hbound]].
      - rewrite (step_live _ _ sk) by done. by apply leaveRoom_last.
      - rewrite (step_live _ _ sk) by done. apply disconnect_last; [|done..].
        unfold bound_room in Hbound. rewrite Hsk in Hbound. simpl in Hbound.
        by eapply wf_binding. }
    split; [done|]. intros sid' now [sk' Hsk'].
    rewrite (step_live _ _ sk') by done. by apply joinRoom_not_found.
Qed.

Lemma empty_room_removed_witness :
  rooms (step lobby (Disconnect "s1")).1 !! "000000" = None ∧
  step (step lobby (Disconnect "s1")).1 (JoinRoom "s2" "000000" clock0) =
    ((step lobby (Disconnect "s1")).1, [Reply "s2" (Failure "Room not found")]).
Proof.
  assert (reachable lobby) as Hreach by reachable_scenario.
  destruct (empty_room_removed lobby "s1" "000000" (Disconnect "s1") Hreach)
    as [_ Hlast].
  destruct Hlast as [Hgone Hjoin].
  - vm_compute. by eexists.
  - vm_compute. reflexivity.
  - vm_compute. reflexivity.
  - right. split; [reflexivity|]. vm_compute. reflexivity.
  - split; [exact Hgone|]. apply Hjoin. vm_compute. by eexists.
Defined.

(** A socket that created two rooms is recorded in both; its disconnect
    removes it from the second one only, and the first room keeps the
    record of a socket that no longer exists. *)
Lemma disconnect_leaves_record :
  let after := (step two_rooms (Disconnect "s1")).1 in
  recorded_in two_rooms "s1" = {[ "000000"; "010000" ]} ∧
  bound_room two_rooms "s1" = Some "010000" ∧
  sockets after !! "s1" = None ∧
  recorded_in after "s1" = {[ "000000" ]}.
Proof. vm_compute. done. Qed.

Lemma disconnect_membership st sid :
  wf st →
  let st' := (step st (Disconnect sid)).1 in
  sockets st' !! sid = None ∧
  (∀ r, bound_room st sid = Some r → is_member st' sid r = false) ∧
  (∀ r, bound_room st sid ≠ Some r →
        is_member st' sid r = is_member st sid r).
Proof.
  intros Hwf st'. subst st'. simpl. unfold bound_room.
  destruct (sockets st !! sid) as [sk|] eqn:Hsk; simpl.
  2:{ split_and!; [done|done|done]. }
  unfold disconnect. rewrite Hsk. cbn [mbind option_bind].
  destruct (roomId sk) as [r0|] eqn:Hr0.
  2:{ split_and!; [apply lookup_delete_eq|done|done]. }
  rewrite truthy_roomId by (by eapply wf_binding).
  cbn [rooms set_sockets].
  destruct (rooms st !! r0) as [room|] eqn:Hroom; simpl.
  2:{ split_and!; [apply lookup_delete_eq| |done].
      intros r [= <-]. unfold is_member. simpl. by rewrite Hroom. }
  destruct (_ =? _) eqn:Hsize; simpl.
  - split_and!; [apply lookup_delete_eq| |].
    + intros r [= <-]. unfold is_member. simpl. by rewrite lookup_delete_eq.
    + intros r Hne. unfold is_member. simpl.
      rewrite lookup_delete_ne by congruence. done.
  - split_and!; [apply lookup_delete_eq| |].
    + intros r [= <-]. unfold is_member. simpl. rewrite lookup_insert_eq.
      simpl. rewrite lookup_delete_eq. apply bool_decide_eq_false_2.
      by intros [? ?].
    + intros r Hne. unfold is_member. simpl.
      rewrite lookup_insert_ne by congruence. done.
Qed.

Lemma sockets_disconnect st sid :
  sockets (disconnect st sid).1 = delete sid (sockets st).
Proof.
  unfold disconnect. destruct (sockets st !! sid ≫= roomId) as [r|]; [|done].
  destruct (truthy r); [|done]. cbn [rooms set_sockets].
  destruct (rooms st !! r) as [room|]; [|done]. by destruct (_ =? _).
Qed.

Lemma sockets_sendTranscript st sid r text conf now :
  sockets (sendTranscript st sid r text conf now).1 = sockets st.
Proof.
  unfold sendTranscript. destruct (rooms st !! r) as [room|]; [|done].
  by case_decide.
Qed.

Lemma sockets_leaveRoom st sid r :
  sockets (leaveRoom st sid r).1 = sockets st ∨
  sockets (leaveRoom st sid r).1 = socket_leave sid r (sockets st).
Proof.
  unfold leaveRoom. destruct (rooms st !! r) as [room|]; [|by left].
  case_decide; [|by left]. right. by destruct (_ =? _).
Qed.

Lemma bound_room_leaveRoom st sid r t :
  bound_room (leaveRoom st sid r).1 t = bound_room st t.
Proof.
  unfold bound_room. destruct (sockets_leaveRoom st sid r) as [->| ->]; [done|].
  rewrite lookup_socket_leave. case_decide; [|done]. subst t.
  by destruct (sockets st !! sid).
Qed.

Lemma joinRoom_cases st sid r now :
  (join_succeeded (joinRoom st sid r now).2 = false ∧
   (joinRoom st sid r now).1 = st) ∨
  (join_succeeded (joinRoom st sid r now).2 = true ∧
   ∃ room, rooms st !! r = Some room ∧ size (users room) < 10 ∧
     (joinRoom st sid r now).1 =
       mkState (localIP st)
         (<[r := set_users room
                   (<[sid := mkUser sid (now 0) (now 1)]> (users room))]>
            (rooms st))
         (set_roomId sid r (socket_join sid r (sockets st))) (issued st)).
Proof.
  destruct (rooms st !! r) as [room|] eqn:Hroom.
  - destruct (decide (size (users room) < 10)) as [Hlt|Hfull].
    + right. rewrite (joinRoom_ok_state st sid r now room) by done.
      split; [done|]. by exists room.
    + left. unfold joinRoom. rewrite Hroom.
      replace (10 <=? size (users room)) with true
        by (symmetry; apply Nat.leb_le; lia).
      done.
  - left. by rewrite joinRoom_not_found.
Qed.

Lemma bound_room_join_bind ss sid r t :
  set_roomId sid r (socket_join sid r ss) !! t ≫= roomId =
  if decide (sid = t) then (ss !! t ≫= λ _, Some r) else ss !! t ≫= roomId.
Proof.
  rewrite lookup_set_roomId, lookup_socket_join. case_decide; [|done].
  by destruct (ss !! t).
Qed.

(** What one event does to the binding of a socket. *)
Lemma step_bound_room st ev sid :
  wf st →
  (ev = Disconnect sid ∧ sockets (step st ev).1 !! sid = None ∧
   sid ∈ issued (step st ev).1) ∨
  ((is_Some (sockets st !! sid) → is_Some (sockets (step st ev).1 !! sid)) ∧
   bound_room (step st ev).1 sid =
   match (if decide (socket_of ev = sid) then binds st ev else None) with
   | Some r => Some r
   | None => bound_room st sid
   end).
Proof.
  intros Hwf.
  destruct ev as [s|s rnds now|s r now|s r text conf now|s|s r];
    unfold binds; cbn [step socket_of].
  - right. unfold connection. case_decide as Hissued.
    + split; [done|]. by destruct (decide (s = sid)), (sockets st !! s).
    + assert (s = sid → sockets st !! sid = None) as Hnew.
      { intros ->. apply eq_None_not_Some. intros Hlive. by apply Hissued, wf_live. }
      unfold bound_room. cbn [fst sockets]. rewrite lookup_insert.
      split.
      * case_decide; [by eexists|done].
      * destruct (decide (s = sid)) as [->|Hne]; simpl.
        -- rewrite (Hnew eq_refl). done.
        -- done.
  - right. destruct (sockets st !! s) as [sk|] eqn:Hsk.
    + unfold createRoom. generalize (substring 0 6 (uuidv4 rnds)). intros rid.
      unfold bound_room. cbn [fst sockets set_sockets set_rooms].
      split.
      * by rewrite is_Some_join_bind.
      * rewrite bound_room_join_bind.
        destruct (decide (s = sid)) as [->|Hne]; [|done].
        by rewrite Hsk.
    + split; [done|]. by destruct (decide (s = sid)).
  - right. destruct (sockets st !! s) as [sk|] eqn:Hsk.
    + destruct (joinRoom_cases st s r now) as [[-> ->]|[-> (room & _ & _ & ->)]].
      * split; [done|]. by destruct (decide (s = sid)).
      * unfold bound_room. cbn [fst sockets]. split.
        -- by rewrite is_Some_join_bind.
        -- rewrite bound_room_join_bind.
           destruct (decide (s = sid)) as [->|Hne]; [|done].
           by rewrite Hsk.
    + split; [done|]. by destruct (decide (s = sid)).
  - right. destruct (sockets st !! s) as [sk|] eqn:Hsk.
    + unfold bound_room. rewrite sockets_sendTranscript.
      split; [done|]. by destruct (decide (s = sid)).
    + split; [done|]. by destruct (decide (s = sid)).
  - destruct (sockets st !! s) as [sk|] eqn:Hsk.
    + destruct (decide (s = sid)) as [->|Hne].
      * left. split_and!; [done| |].
        -- rewrite sockets_disconnect. apply lookup_delete_eq.
        -- assert (issued (disconnect st sid).1 = issued st) as ->.
           { unfold disconnect.
             destruct (sockets st !! sid ≫= roomId) as [r|]; [|done].
             destruct (truthy r); [|done]. cbn [rooms set_sockets].
             destruct (rooms st !! r) as [room|]; [|done].
             by destruct (_ =? _). }
           apply wf_live; [done|by eexists].
      * right. unfold bound_room. rewrite sockets_disconnect.
        by rewrite lookup_delete_ne.
    + right. split; [done|]. by destruct (decide (s = sid)).
  - right. destruct (sockets st !! s) as [sk|] eqn:Hsk.
    + rewrite bound_room_leaveRoom. split.
      * destruct (sockets_leaveRoom st s r) as [->| ->]; [done|].
        unfold socket_leave. by rewrite lookup_alter_is_Some.
      * by destruct (decide (s = sid)).
    + split; [done|]. by destruct (decide (s = sid)).
Qed.

(** A socket that has disconnected never comes back: its identifier is
    not issued again. *)
Lemma step_dead st ev sid :
  sid ∈ issued st → sockets st !! sid = None →
  sockets (step st ev).1 !! sid = None ∧ sid ∈ issued (step st ev).1.
Proof.
  intros Hissued Hdead.
  destruct ev as [s|s rnds now|s r now|s r text conf now|s|s r];
    cbn [step socket_of].
  - unfold connection. case_decide as Hs; [done|]. cbn [fst sockets issued].
    split; [|set_solver]. rewrite lookup_insert_ne; [done|]. by intros ->.
  - destruct (sockets st !! s); [|done]. unfold createRoom.
    generalize (substring 0 6 (uuidv4 rnds)). intros rid.
    cbn [fst sockets issued set_sockets set_rooms]. split; [|done].
    apply eq_None_not_Some. by rewrite is_Some_join_bind, Hdead.
  - destruct (sockets st !! s); [|done].
    destruct (joinRoom_cases st s r now) as [[_ ->]|[_ (room & _ & _ & ->)]];
      [done|].
    cbn [sockets issued]. split; [|done].
    apply eq_None_not_Some. by rewrite is_Some_join_bind, Hdead.
  - destruct (sockets st !! s); [|done]. rewrite sockets_sendTranscript.
    split; [done|]. unfold sendTranscript.
    destruct (rooms st !! r); [|done]. by case_decide.
  - destruct (sockets st !! s); [|done]. rewrite sockets_disconnect.
    split.
    + rewrite lookup_delete. by case_decide.
    + unfold disconnect. destruct (sockets st !! s ≫= roomId) as [r|]; [|done].
      destruct (truthy r); [|done]. cbn [rooms set_sockets].
      destruct (rooms st !! r); [|done]. by destruct (_ =? _).
  - destruct (sockets st !! s); [|done]. split.
    + destruct (sockets_leaveRoom st s r) as [->| ->]; [done|].
      apply eq_None_not_Some. unfold socket_leave.
      by rewrite lookup_alter_is_Some, Hdead.
    + unfold leaveRoom. destruct (rooms st !! r); [|done].
      case_decide; [|done]. by destruct (_ =? _).
Qed.

Lemma run_dead evs : ∀ st sid,
  sid ∈ issued st → sockets st !! sid = None →
  sockets (run st evs).1 !! sid = None.
Proof.
  induction evs as [|ev evs IH]; intros st sid Hissued Hdead; [done|].
  simpl. destruct (step_dead st ev sid Hissued Hdead) as [Hdead1 Hissued1].
  destruct (step st ev) as [st1 out1]. specialize (IH st1 sid Hissued1 Hdead1).
  by destruct (run st1 evs).
Qed.

Lemma run_step st ev evs : (run st (ev :: evs)).1 = (run (step st ev).1 evs).1.
Proof.
  simpl. destruct (step st ev) as [st1 out1]. simpl.
  by destruct (run st1 evs).
Qed.

(** While a socket is live it is bound to the room of its last binding
    event. *)
Lemma run_bound_room evs : ∀ st sid,
  wf st → is_Some (sockets (run st evs).1 !! sid) →
  bound_room (run st evs).1 sid =
  match last_binding sid st evs with
  | Some r => Some r
  | None => bound_room st sid
  end.
Proof.
  induction evs as [|ev evs IH]; intros st sid Hwf Hlive; [done|].
  rewrite run_step in Hlive |- *. cbn [last_binding].
  pose proof (wf_step st ev Hwf) as Hwf1.
  rewrite (IH _ _ Hwf1 Hlive).
  destruct (last_binding sid (step st ev).1 evs) as [r|]; [done|].
  destruct (step_bound_room st ev sid Hwf) as [(_ & Hdead & Hissued)|[_ ->]].
  - rewrite (run_dead evs _ _ Hissued Hdead) in Hlive. by destruct Hlive.
  - done.
Qed.

Lemma binds_inv st ev r :
  binds st ev = Some r →
  ∃ sid sk, sockets st !! sid = Some sk ∧
    ((∃ rnds now, ev = CreateRoom sid rnds now ∧
                  r = substring 0 6 (uuidv4 rnds)) ∨
     (∃ now, ev = JoinRoom sid r now ∧
             join_succeeded (joinRoom st sid r now).2 = true)).
Proof.
  unfold binds. destruct (sockets st !! socket_of ev) as [sk|] eqn:Hsk; [|done].
  intros Hb. exists (socket_of ev), sk. split; [done|].
  destruct ev as [s|s rnds now|s r' now|s r' text conf now|s|s r'];
    cbn [socket_of] in *.
  - discriminate Hb.
  - left. exists rnds, now. split; [done|].
    revert Hb. generalize (substring 0 6 (uuidv4 rnds)). by intros rid [= ->].
  - right. destruct (join_succeeded _) eqn:Hok; [|discriminate Hb].
    injection Hb as <-. by exists now.
  - discriminate Hb.
  - discriminate Hb.
  - discriminate Hb.
Qed.

(** A binding event records the socket in the room it binds it to and
    keeps every record the socket had. *)
Lemma binds_recorded_in st ev r :
  binds st ev = Some r →
  recorded_in (step st ev).1 (socket_of ev) =
  recorded_in st (socket_of ev) ∪ {[r]}.
Proof.
  intros Hb. destruct (binds_inv st ev r Hb) as (sid & sk & Hsk & Hev).
  assert (socket_of ev = sid) as Hsid
    by (destruct Hev as [(? & ? & -> & _)|(? & -> & _)]; done).
  rewrite Hsid. rewrite (step_live st ev sk) by (by rewrite Hsid).
  apply set_eq. intros r'.
  rewrite elem_of_union, elem_of_singleton, !elem_of_recorded_in.
  destruct Hev as [(rnds & now & -> & ->)|(now & -> & Hok)].
  - unfold createRoom. generalize (substring 0 6 (uuidv4 rnds)). intros rid.
    unfold is_member at 1. cbn [fst rooms set_sockets set_rooms].
    rewrite lookup_insert. case_decide as Hr.
    + subst r'. cbn [users]. rewrite lookup_singleton_eq.
      rewrite bool_decide_eq_true_2 by (by eexists). split; auto.
    + split; [by left|]. intros [?|?]; [done|congruence].
  - destruct (joinRoom_cases st sid r now)
      as [[Hno _]|[_ (room & Hroom & _ & ->)]]; [congruence|].
    unfold is_member at 1. cbn [rooms]. rewrite lookup_insert.
    case_decide as Hr.
    + subst r'. cbn [users set_users]. rewrite lookup_insert_eq.
      rewrite bool_decide_eq_true_2 by (by eexists). split; auto.
    + split; [by left|]. intros [?|?]; [done|congruence].
Qed.

(** The registry after a disconnect. *)
Lemma step_disconnect_rooms st sid :
  wf st →
  rooms (step st (Disconnect sid)).1 =
  match bound_room st sid with
  | Some r =>
      match rooms st !! r with
      | Some room =>
          if size (delete sid (users room)) =? 0 then delete r (rooms st)
          else <[r := set_users room (delete sid (users room))]> (rooms st)
      | None => rooms st
      end
  | None => rooms st
  end.
Proof.
  intros Hwf. cbn [step socket_of]. unfold bound_room.
  destruct (sockets st !! sid) as [sk|] eqn:Hsk; [|done].
  unfold disconnect. rewrite Hsk. cbn [mbind option_bind].
  destruct (roomId sk) as [r|] eqn:Hr; [|done].
  rewrite truthy_roomId by (by eapply wf_binding).
  cbn [rooms set_sockets]. destruct (rooms st !! r) as [room|]; [|done].
  cbn [users set_users]. by destruct (_ =? _).
Qed.

Lemma only_participant_size st sid r room :
  rooms st !! r = Some room → dom (users room) = {[sid]} →
  size (delete sid (users room)) = 0.
Proof.
  intros _ Hdom. rewrite <-size_dom, dom_delete_L, Hdom.
  replace ({[sid]} ∖ {[sid]} : gset string) with (∅ : gset string)
    by (apply set_eq; intros x; rewrite elem_of_difference, elem_of_singleton;
        split; [by intros ?%not_elem_of_empty|by intros [? ?]]).
  apply size_empty.
Qed.

(** What a disconnect does to the room the socket is bound to. *)
Lemma disconnect_bound_room st sid r :
  wf st → bound_room st sid = Some r →
  let st' := (step st (Disconnect sid)).1 in
  (participants st r = {[sid]} → rooms st' !! r = None) ∧
  (participants st r ≠ {[sid]} →
   participants st' r = participants st r ∖ {[sid]} ∧
   transcript st' r = transcript st r ∧
   (rooms st' !! r = None ↔ rooms st !! r = None)).
Proof.
  intros Hwf Hbound st'.
  pose proof (step_disconnect_rooms st sid Hwf) as Hrooms. fold st' in Hrooms.
  rewrite Hbound in Hrooms. unfold participants, transcript. rewrite Hrooms.
  destruct (rooms st !! r) as [room|] eqn:Hroom.
  - split.
    + intros Honly. rewrite (only_participant_size st sid r room) by done.
      apply lookup_delete_eq.
    + intros Hothers.
      destruct (size (delete sid (users room)) =? 0) eqn:Hsize.
      * exfalso. apply Hothers. apply Nat.eqb_eq, map_size_empty_iff in Hsize.
        pose proof (ok_nonempty _ _ (wf_rooms _ Hwf _ _ Hroom)) as Hpos.
        apply set_eq. intros t. rewrite elem_of_singleton, elem_of_dom. split.
        -- intros Ht. destruct (decide (t = sid)) as [->|Hne]; [done|].
           rewrite <-(lookup_delete_ne (users room) sid t), Hsize in Ht by done.
           rewrite lookup_empty in Ht. by destruct Ht.
        -- intros ->. destruct (users room !! sid) eqn:Hsid; [by eexists|].
           rewrite delete_id in Hsize by done. rewrite Hsize in Hpos.
           rewrite map_size_empty in Hpos. lia.
      * rewrite lookup_insert_eq. cbn [users messages set_users].
        rewrite dom_delete_L. split_and!; [done|done|].
        split; intros [=].
  - split; [intros Honly; exfalso|].
    + assert (sid ∈ (∅ : gset string)) as Hin
        by (rewrite Honly; by apply elem_of_singleton).
      by apply not_elem_of_empty in Hin.
    + intros _. rewrite ?Hroom. split_and!; [|reflexivity|tauto].
      apply set_eq. intros t. rewrite elem_of_difference.
      split; [by intros ?%not_elem_of_empty|by intros [?%not_elem_of_empty _]].
Qed.

Lemma disconnect_other_rooms st sid r :
  wf st → bound_room st sid ≠ Some r →
  rooms (step st (Disconnect sid)).1 !! r = rooms st !! r.
Proof.
  intros Hwf Hne. rewrite step_disconnect_rooms by done.
  destruct (bound_room st sid) as [r0|]; [|done].
  destruct (rooms st !! r0) as [room|]; [|done].
  destruct (_ =? _).
  - apply lookup_delete_ne. congruence.
  - apply lookup_insert_ne. congruence.
Qed.

Lemma step_binds_bound_room st ev r :
  wf st → binds st ev = Some r →
  bound_room (step st ev).1 (socket_of ev) = Some r.
Proof.
  intros Hwf Hb.
  destruct (step_bound_room st ev (socket_of ev) Hwf) as [(Hev & _)|[_ ->]].
  - destruct (binds_inv st ev r Hb) as (sid & sk & _ & Hcases).
    destruct Hcases as [(rnds & now & Hcreate & _)|(now & Hjoin & _)].
    + rewrite Hcreate in Hev. discriminate Hev.
    + rewrite Hjoin in Hev. discriminate Hev.
  - by rewrite decide_True, Hb.
Qed.

(** C4 (amended): [socket.roomId] names at most one room: while a socket
    is live it is bound to the room of its last [createRoom] or successful
    [joinRoom], if it has made one.  Such a request also records the
    socket in that room and keeps every record the socket had, so nothing
    keeps a socket from being recorded in several rooms.  When a socket
    disconnects it stops being a live socket and is removed from the room
    it is bound to: that room is deleted if the socket was its only
    recorded participant, and otherwise keeps its other participants and
    its transcript; every other room is left as it is, so the rooms that
    still record the socket are exactly the other rooms that recorded it
    before.  Hence, if the socket was recorded in no room other than the
    one it is bound to, no room of the registry records it after the
    disconnect. *)
Theorem disconnect_clears_bound_room st sid :
  reachable st →
  let st' := (step st (Disconnect sid)).1 in
  (∀ evs, is_Some (sockets (run st evs).1 !! sid) →
     bound_room (run st evs).1 sid =
     match last_binding sid st evs with
     | Some r => Some r
     | None => bound_room st sid
     end) ∧
  (∀ ev r, socket_of ev = sid → binds st ev = Some r →
     bound_room (step st ev).1 sid = Some r ∧
     recorded_in (step st ev).1 sid = recorded_in st sid ∪ {[r]}) ∧
  sockets st' !! sid = None ∧
  (∀ r, bound_room st sid = Some r →
     (participants st r = {[sid]} → rooms st' !! r = None) ∧
     (participants st r ≠ {[sid]} →
      participants st' r = participants st r ∖ {[sid]} ∧
      transcript st' r = transcript st r ∧
      (rooms st' !! r = None ↔ rooms st !! r = None))) ∧
  (∀ r, bound_room st sid ≠ Some r → rooms st' !! r = rooms st !! r) ∧
  recorded_in st' sid =
    recorded_in st sid ∖ from_option singleton ∅ (bound_room st sid) ∧
  ((∀ r, r ∈ recorded_in st sid → bound_room st sid = Some r) →
   recorded_in st' sid = ∅).
Proof.
  intros Hreach st'. apply reachable_wf in Hreach as Hwf.
  destruct (disconnect_membership st sid Hwf) as (Hgone & Hb & Ho).
  fold st' in Hgone, Hb, Ho.
  assert (recorded_in st' sid =
    recorded_in st sid ∖ from_option singleton ∅ (bound_room st sid)) as Heq.
  { apply set_eq. intros r.
    rewrite elem_of_difference, !elem_of_recorded_in.
    destruct (bound_room st sid) as [r0|] eqn:Hbound; simpl.
    - rewrite elem_of_singleton. destruct (decide (r = r0)) as [->|Hne].
      + rewrite Hb by done. split; [done|]. by intros [_ []].
      + rewrite Ho by congruence. split; [by intros ?|by intros [? _]].
    - rewrite Ho by done. split; [|by intros [? _]].
      intros Hin. split; [done|]. apply not_elem_of_empty. }
  split_and!.
  - intros evs Hlive. by apply run_bound_room.
  - intros ev r <- Hbinds. split.
    + by apply step_binds_bound_room.
    + by apply binds_recorded_in.
  - done.
  - intros r Hbound. by apply disconnect_bound_room.
  - intros r Hne. by apply disconnect_other_rooms.
  - done.
  - intros Honly. rewrite Heq. apply set_eq. intros r.
    rewrite elem_of_difference. split; [|set_solver].
    intros [Hin Hnot]. rewrite (Honly r Hin) in Hnot. set_solver.
Qed.

Lemma disconnect_clears_bound_room_witness :
  let created := [CreateRoom "s3" (2 ^ 120)%N clock0] in
  let st' := (step nine_members (Disconnect "s3")).1 in
  bound_room nine_members "s3" = Some "000000" ∧
  bound_room (run nine_members created).1 "s3" = Some "010000" ∧
  recorded_in (run nine_members created).1 "s3" = {[ "000000"; "010000" ]} ∧
  sockets st' !! "s3" = None ∧
  size (participants st' "000000") = 8 ∧
  rooms st' !! "010000" = None ∧
  recorded_in st' "s3" = ∅.
Proof.
  assert (reachable nine_members) as Hreach by reachable_scenario.
  destruct (disconnect_clears_bound_room nine_members "s3" Hreach)
    as (Hlast & Hbinds & Hgone & Hfate & Hother & _ & Hnone).
  assert (bound_room nine_members "s3" = Some "000000") as Hbound
    by (vm_compute; reflexivity).
  assert (recorded_in nine_members "s3" = {[ "000000" ]}) as Hrec
    by (vm_compute; reflexivity).
  split_and!.
  - exact Hbound.
  - rewrite Hlast by (vm_compute; by eexists). vm_compute. reflexivity.
  - destruct (Hbinds (CreateRoom "s3" (2 ^ 120)%N clock0) "010000")
      as [_ Hgrow]; [reflexivity|vm_compute; reflexivity|].
    cbv zeta. rewrite run_step. cbn [run fst].
    rewrite Hgrow, Hrec. vm_compute. reflexivity.
  - exact Hgone.
  - destruct (Hfate "000000" Hbound) as [_ Hstay].
    destruct Hstay as (-> & _ & _).
    + intros Honly.
      assert (size (participants nine_members "000000") = 1) as Hsize
        by (rewrite Honly; apply size_singleton).
      vm_compute in Hsize. discriminate Hsize.
    + vm_compute. reflexivity.
  - rewrite Hother by (rewrite Hbound; discriminate). vm_compute. reflexivity.
  - apply Hnone. rewrite Hrec. intros r Hr.
    apply elem_of_singleton in Hr as ->. exact Hbound.
Defined.

(** ** Sequences of joins and leaves on one room *)

(** The creator of a room, its only participant, joins it twice more:
    two successful joins, no leave, and the count is still 1. *)
Lemma rejoin_is_not_counted :
  let ops := [OpJoin "s1" clock0; OpJoin "s1" clock0] in
  userCount lobby "000000" = 1 ∧
  count_ops (successful_join "000000") "000000" lobby ops = 2 ∧
  count_ops (effective_leave "000000") "000000" lobby ops = 0 ∧
  userCount (run_ops "000000" lobby ops) "000000" = 1.
Proof. vm_compute. done. Qed.

Lemma apply_op_userCount roomId st op :
  userCount (apply_op roomId st op) roomId +
    (if effective_leave roomId st op then 1 else 0) =
  userCount st roomId + (if new_join roomId st op then 1 else 0).
Proof.
  destruct op as [sid now|sid]; cbn [apply_op effective_leave new_join].
  - destruct (rooms st !! roomId) as [room|] eqn:Hroom.
    + destruct (decide (size (users room) < 10)) as [Hlt|Hfull].
      * rewrite (joinRoom_userCount st sid roomId room now) by done.
        rewrite (joinRoom_ok_state st sid roomId now room) by done.
        cbn [snd join_succeeded andb]. unfold userCount. rewrite Hroom.
        destruct (is_member st sid roomId); simpl; lia.
      * unfold joinRoom. rewrite Hroom.
        replace (10 <=? size (users room)) with true
          by (symmetry; apply Nat.leb_le; lia).
        simpl. lia.
    + rewrite joinRoom_not_found by done. simpl. lia.
  - unfold leaveRoom, is_member, userCount.
    destruct (rooms st !! roomId) as [room|] eqn:Hroom;
      [|simpl; rewrite ?Hroom; lia].
    case_decide as Hin.
    + rewrite bool_decide_eq_true_2 by done. cbn [users set_users].
      pose proof (map_size_delete_Some sid (users room) Hin) as Hdel.
      assert (size (users room) ≠ 0) as Hpos
        by (by apply map_size_ne_0_lookup_2 with sid).
      destruct (size (delete sid (users room)) =? 0) eqn:Hzero; simpl.
      * apply Nat.eqb_eq in Hzero. rewrite lookup_delete_eq. lia.
      * rewrite lookup_insert_eq. simpl. lia.
    + rewrite bool_decide_eq_false_2 by done. simpl. rewrite Hroom. lia.
Qed.

(** C8 (amended): over any sequence of joins and leaves on a room, the
    participant count after the sequence is the count before it, plus the
    number of successful joins by sessions that were not already in the
    room, minus the number of leaves that removed a participant; a
    successful join by a session already in the room does not change the
    count.  The count is never negative, and it is the number of distinct
    session ids recorded in the room. *)
Theorem userCount_net roomId st ops :
  let joined := count_ops (new_join roomId) roomId st ops in
  let left := count_ops (effective_leave roomId) roomId st ops in
  let st' := run_ops roomId st ops in
  left ≤ userCount st roomId + joined ∧
  userCount st' roomId = userCount st roomId + joined - left ∧
  (Z.of_nat (userCount st' roomId) =
     Z.of_nat (userCount st roomId) + Z.of_nat joined - Z.of_nat left)%Z ∧
  userCount st' roomId = size (participants st' roomId).
Proof.
  cbv zeta.
  assert (userCount (run_ops roomId st ops) roomId +
            count_ops (effective_leave roomId) roomId st ops =
          userCount st roomId + count_ops (new_join roomId) roomId st ops)
    as Hnet.
  { unfold run_ops. revert st.
    induction ops as [|op ops IH]; intros st; cbn [foldl count_ops]; [done|].
    pose proof (apply_op_userCount roomId st op) as Hop.
    specialize (IH (apply_op roomId st op)).
    destruct (effective_leave roomId st op), (new_join roomId st op); lia. }
  split_and!; [lia..|].
  unfold userCount, participants.
  destruct (rooms _ !! roomId) as [room|]; [|done].
  symmetry. apply size_dom.
Qed.
